(** * HyperFlow daemon: event parsing, rule matching, debouncing, reloading

    A shallow embedding of [src/hyperflow/daemon.py] (class
    [HyperFlowDaemon]) and the properties of its event engine.

    Conventions of the embedding:
    - a Python [str] is a [string]: a sequence of code points below 256;
    - a value produced by [json.load] is a [json] (objects are finite maps
      keyed by strings, as the Python [dict] they are loaded into);
    - Python floats are the kernel's binary64 [float];
    - a raised exception is the [Raise] case of [res]; the daemon's fields,
      the monotonic clock and everything printed or spawned live in [world],
      threaded through the methods by the monad [M];
    - what the file system holds when the rules are loaded is an argument of
      [load_rules]; a reload (SIGHUP) is a step of its own between two
      events;
    - the methods are given twice: first with a [print] that returns, then
      (module [Piped]) with a standard output that can refuse a message, in
      which case [print] raises. *)

From Stdlib Require Import ZArith Floats Ascii Uint63.
From stdpp Require Import gmap strings list.

Local Open Scope Z_scope.

(** ** Python string operations used by the daemon *)

Module PyStr.

(** [s.startswith(p)] *)
Fixpoint startswith (s p : string) : bool :=
  match p, s with
  | EmptyString, _ => true
  | String _ _, EmptyString => false
  | String a p', String b s' => if decide (a = b) then startswith s' p' else false
  end.

(** [s.endswith(p)] *)
Definition endswith (s p : string) : bool :=
  startswith (String.rev s) (String.rev p).

(** [sub in s] *)
Fixpoint contains (sub s : string) : bool :=
  startswith s sub ||
  match s with
  | EmptyString => false
  | String _ s' => contains sub s'
  end.

(** [s[n:]] *)
Fixpoint drop (n : nat) (s : string) : string :=
  match n, s with
  | O, _ => s
  | S _, EmptyString => EmptyString
  | S k, String _ s' => drop k s'
  end.

(** [maxsplit] of [str.split]: [None] is the default (no limit). *)
Definition may_split (maxsplit : option nat) : bool :=
  match maxsplit with Some O => false | _ => true end.

Definition one_less (maxsplit : option nat) : option nat :=
  Nat.pred <$> maxsplit.

(** The left-to-right scan of [s.split(sep, maxsplit)] for a non-empty
    [sep].  The head of the result is the field being read; [skip] counts
    the characters of a separator just matched that are still to be
    passed over. *)
Fixpoint split_go (sep : string) (maxsplit : option nat) (skip : nat)
    (s : string) : list string :=
  match s with
  | EmptyString => [EmptyString]
  | String c s' =>
      match skip with
      | S k => split_go sep maxsplit k s'
      | O =>
          if may_split maxsplit && startswith s sep
          then EmptyString ::
               split_go sep (one_less maxsplit) (String.length sep - 1) s'
          else match split_go sep maxsplit 0 s' with
               | f :: fs => String c f :: fs
               | [] => [String c EmptyString]
               end
      end
  end.

(** [s.split(sep, maxsplit)], [sep] a non-empty literal in every call of
    the daemon. *)
Definition split (sep : string) (maxsplit : option nat) (s : string) : list string :=
  split_go sep maxsplit 0 s.

(** [sep.join(l)] *)
Fixpoint join (sep : string) (l : list string) : string :=
  match l with
  | [] => EmptyString
  | [f] => f
  | f :: fs => f +:+ sep +:+ join sep fs
  end.

End PyStr.

(** ** Exceptions and results *)

Inductive exn := AttributeError | TypeError | ValueError | OverflowError | OSError.

Inductive res (A : Type) :=
| Ok (a : A)
| Raise (e : exn).
Arguments Ok {A} a.
Arguments Raise {A} e.

(** ** Python floats: [float(str)], [float(int)] and [int / int]

    CPython converts decimal text and integers to the nearest binary64 value,
    ties to even.  The rounding is done here on exact integers; the float is
    then assembled from a mantissa of at most 53 bits, which is exact. *)

Module PyFloat.

Definition round_half_even (num den : Z) : Z :=
  let q := num / den in
  let r := num mod den in
  if 2 * r <? den then q
  else if den <? 2 * r then q + 1
  else if Z.even q then q else q + 1.

(** For [0 < n] and [0 < d]: the pair [(m, s)] with [m * 2^s] the binary64
    value nearest to [n / d] ([s] is at least the subnormal exponent
    [-1074]; [m] has at most 53 bits, or is [2^53] after a carry). *)
Definition nearest (n d : Z) : Z * Z :=
  let e0 := Z.log2 n - Z.log2 d in
  let e := if n * 2 ^ Z.max 0 (- e0) <? d * 2 ^ Z.max 0 e0 then e0 - 1 else e0 in
  let s := Z.max (e - 52) (-1074) in
  (round_half_even (n * 2 ^ Z.max 0 (- s)) (d * 2 ^ Z.max 0 s), s).

(** [m * 2^s] is at least [2^1024], beyond the finite binary64 values. *)
Definition too_large (ms : Z * Z) : bool :=
  let '(m, s) := ms in (971 <? s) || ((s =? 971) && (m =? 2 ^ 53)).

Definition assemble (ms : Z * Z) : float :=
  let '(m, s) := ms in Z.ldexp (PrimFloat.of_uint63 (Uint63.of_Z m)) s.

Definition signed (negative : bool) (f : float) : float :=
  if negative then PrimFloat.opp f else f.

(** The quotient [n / d] of two integers, [0 < d], as [int.__truediv__] and
    [float(int)] (with [d = 1]) compute it: [None] stands for the
    [OverflowError] both raise when the result is out of range. *)
Definition of_ratio (n d : Z) : option float :=
  if n =? 0 then Some 0%float
  else
    let ms := nearest (Z.abs n) d in
    if too_large ms then None else Some (signed (n <? 0) (assemble ms)).

(** *** [float(s)] for a string *)

Definition code (c : ascii) : Z := Z.of_N (N_of_ascii c).

Definition is_digit (c : ascii) : bool := (48 <=? code c) && (code c <=? 57).

(** [Py_ISSPACE]: the ASCII white space. *)
Definition is_space (c : ascii) : bool :=
  ((9 <=? code c) && (code c <=? 13)) || (code c =? 32).

(** Code points above 127 are first mapped to ASCII: white space (NEL and
    NBSP, below 256) to a blank, anything else (no decimal digit lies
    between 128 and 255) to a question mark, which no number contains. *)
Definition to_ascii (c : ascii) : ascii :=
  if code c <? 128 then c
  else if (code c =? 133) || (code c =? 160) then " "%char
  else "?"%char.

(** An underscore is accepted only between two digits and is left out. *)
Fixpoint drop_underscores (prev : option ascii) (l : list ascii)
    : option (list ascii) :=
  match l with
  | [] => if decide (prev = Some "_"%char) then None else Some []
  | c :: l' =>
      if decide (c = "_"%char) then
        match prev with
        | Some p => if is_digit p then drop_underscores (Some c) l' else None
        | None => None
        end
      else if bool_decide (prev = Some "_"%char) && negb (is_digit c) then None
      else (c ::.) <$> drop_underscores (Some c) l'
  end.

Fixpoint lstrip (l : list ascii) : list ascii :=
  match l with
  | c :: l' => if is_space c then lstrip l' else l
  | [] => []
  end.

Definition strip (l : list ascii) : list ascii :=
  reverse (lstrip (reverse (lstrip l))).

Fixpoint span_digits (l : list ascii) : list ascii * list ascii :=
  match l with
  | c :: l' =>
      if is_digit c then let '(ds, r) := span_digits l' in (c :: ds, r)
      else ([], l)
  | [] => ([], [])
  end.

Definition digits_value (ds : list ascii) : Z :=
  foldl (fun acc c => 10 * acc + (code c - 48)) 0 ds.

Definition take_sign (l : list ascii) : bool * list ascii :=
  match l with
  | c :: l' =>
      if decide (c = "-"%char) then (true, l')
      else if decide (c = "+"%char) then (false, l')
      else (false, l)
  | [] => (false, [])
  end.

Definition lower (c : ascii) : ascii :=
  if (65 <=? code c) && (code c <=? 90)
  then ascii_of_N (Z.to_N (code c + 32)) else c.

(** The exponent part: empty, or [e]/[E], a sign, digits up to the end. *)
Definition exponent (l : list ascii) : option Z :=
  match l with
  | [] => Some 0
  | c :: l' =>
      if decide (lower c = "e"%char) then
        let '(neg, r) := take_sign l' in
        match span_digits r with
        | (d :: ds, []) =>
            Some (if neg then - digits_value (d :: ds) else digits_value (d :: ds))
        | _ => None
        end
      else None
  end.

(** The value of the decimal [digits * 10^e], correctly rounded; beyond the
    range it is an infinity (text never overflows), below it a zero.  The
    two shortcuts keep powers of ten small: from [10^401] on every value
    rounds to infinity, and below [10^-401] every value rounds to zero. *)
Definition decimal (digits : list ascii) (e : Z) : float :=
  let D := digits_value digits in
  if D =? 0 then 0%float
  else if 400 <? e then infinity
  else if Z.of_nat (length digits) + e <? -400 then 0%float
  else
    let ms := if 0 <=? e then nearest (D * 10 ^ e) 1 else nearest D (10 ^ (- e)) in
    if too_large ms then infinity else assemble ms.

Definition unsigned_literal (l : list ascii) : option float :=
  let name := String.string_of_list_ascii (lower <$> l) in
  if bool_decide (name = "inf") || bool_decide (name = "infinity") then Some infinity
  else if decide (name = "nan") then Some nan
  else
    let '(ip, r1) := span_digits l in
    let '(fp, r2) :=
      match r1 with
      | c :: r => if decide (c = "."%char) then span_digits r else ([], r1)
      | [] => ([], [])
      end in
    match ip ++ fp with
    | [] => None
    | _ :: _ =>
        e ← exponent r2;
        Some (decimal (ip ++ fp) (e - Z.of_nat (length fp)))
    end.

(** [float(s)]: [None] stands for the [ValueError] of text that is not a
    number. *)
Definition of_string (s : string) : option float :=
  l ← drop_underscores None (to_ascii <$> String.list_ascii_of_string s);
  let '(neg, r) := take_sign (strip l) in
  signed neg <$> unsigned_literal r.

End PyFloat.

(** ** Values loaded by [json.load] *)

#[warnings="-register-all"]
Inductive json :=
| JNull                              (* None *)
| JBool (b : bool)
| JInt (z : Z)
| JFloat (f : float)
| JStr (s : string)
| JArr (l : list json)
| JObj (m : gmap string json).

(** Keys of the dictionary [last_event_time].  Python identifies the numbers
    [1], [1.0] and [True] as one key, so a rule id is hashed to a canonical
    form: an integral number to [KInt], any other float to its binary64
    description.  (All NaN ids share one key; Python tells NaN objects
    apart by identity.) *)
Inductive dict_key :=
| KNone
| KStr (s : string)
| KInt (z : Z)
| KFloat (f : spec_float).

Module Py.

(** [o.get(key, dflt)]: only a dictionary has the method. *)
Definition get (o : json) (key : string) (dflt : json) : res json :=
  match o with
  | JObj m => Ok (default dflt (m !! key))
  | _ => Raise AttributeError
  end.

(** Truth value of [x], as [if x:] and [not x] take it. *)
Definition truthy (x : json) : bool :=
  match x with
  | JNull => false
  | JBool b => b
  | JInt z => negb (z =? 0)
  | JFloat f => negb (PrimFloat.eqb f 0)
  | JStr s => negb (bool_decide (s = EmptyString))
  | JArr l => negb (bool_decide (l = []))
  | JObj m => negb (bool_decide (m = ∅))
  end.

(** [x == s] for a string [s]. *)
Definition eq_str (x : json) (s : string) : bool :=
  match x with
  | JStr t => bool_decide (t = s)
  | _ => false
  end.

(** The items a [for] loop over [x] visits.  A dictionary yields its keys
    and a string its characters; both are strings, and every loop of the
    daemon raises on the first string it meets, so the order in which the
    keys come does not matter. *)
Definition iter (x : json) : res (list json) :=
  match x with
  | JArr l => Ok l
  | JObj m => Ok (JStr <$> (map_to_list m).*1)
  | JStr s => Ok ((fun c => JStr (String c EmptyString)) <$> String.list_ascii_of_string s)
  | _ => Raise TypeError
  end.

(** [len(x)] *)
Definition len (x : json) : res nat :=
  match x with
  | JArr l => Ok (length l)
  | JObj m => Ok (size m)
  | JStr s => Ok (String.length s)
  | _ => Raise TypeError
  end.

(** [x > 0] *)
Definition gt_zero (x : json) : res bool :=
  match x with
  | JInt z => Ok (0 <? z)
  | JBool b => Ok b
  | JFloat f => Ok (PrimFloat.ltb 0 f)
  | _ => Raise TypeError
  end.

Definition of_ratio (n d : Z) : res float :=
  match PyFloat.of_ratio n d with
  | Some f => Ok f
  | None => Raise OverflowError
  end.

(** [x / 1000] *)
Definition div_1000 (x : json) : res float :=
  match x with
  | JInt z => of_ratio z 1000
  | JBool b => of_ratio (if b then 1 else 0) 1000
  | JFloat f => Ok (PrimFloat.div f 1000)
  | _ => Raise TypeError
  end.

(** [float(x)] *)
Definition to_float (x : json) : res float :=
  match x with
  | JStr s =>
      match PyFloat.of_string s with
      | Some f => Ok f
      | None => Raise ValueError
      end
  | JInt z => of_ratio z 1
  | JBool b => Ok (if b then 1%float else 0%float)
  | JFloat f => Ok f
  | _ => Raise TypeError
  end.

(** The integer a finite float is equal to, if there is one. *)
Definition integral (f : spec_float) : option Z :=
  match f with
  | S754_zero _ => Some 0
  | S754_finite neg m e =>
      let v := if 0 <=? e then Some (Z.pos m * 2 ^ e)
               else if Z.pos m mod 2 ^ (- e) =? 0 then Some (Z.pos m / 2 ^ (- e))
               else None in
      (fun z => if neg then - z else z) <$> v
  | _ => None
  end.

(** Hashing [x] as a dictionary key; lists and dictionaries are
    unhashable. *)
Definition hash (x : json) : res dict_key :=
  match x with
  | JNull => Ok KNone
  | JStr s => Ok (KStr s)
  | JBool b => Ok (KInt (if b then 1 else 0))
  | JInt z => Ok (KInt z)
  | JFloat f =>
      match integral (Prim2SF f) with
      | Some z => Ok (KInt z)
      | None => Ok (KFloat (Prim2SF f))
      end
  | JArr _ | JObj _ => Raise TypeError
  end.

End Py.

Global Instance spec_float_eq_dec : EqDecision spec_float.
Proof. solve_decision. Defined.

Global Instance dict_key_eq_dec : EqDecision dict_key.
Proof. solve_decision. Defined.

Definition spec_float_code (f : spec_float) : bool + bool + unit + bool * positive * Z :=
  match f with
  | S754_zero s => inl (inl (inl s))
  | S754_infinity s => inl (inl (inr s))
  | S754_nan => inl (inr tt)
  | S754_finite s m e => inr (s, m, e)
  end.

Definition spec_float_decode (c : bool + bool + unit + bool * positive * Z) : spec_float :=
  match c with
  | inl (inl (inl s)) => S754_zero s
  | inl (inl (inr s)) => S754_infinity s
  | inl (inr _) => S754_nan
  | inr (s, m, e) => S754_finite s m e
  end.

Global Instance spec_float_countable : Countable spec_float.
Proof.
  apply (inj_countable' spec_float_code spec_float_decode).
  intros []; reflexivity.
Defined.

Definition dict_key_code (k : dict_key) : unit + string + Z + spec_float :=
  match k with
  | KNone => inl (inl (inl tt))
  | KStr s => inl (inl (inr s))
  | KInt z => inl (inr z)
  | KFloat f => inr f
  end.

Definition dict_key_decode (c : unit + string + Z + spec_float) : dict_key :=
  match c with
  | inl (inl (inl _)) => KNone
  | inl (inl (inr s)) => KStr s
  | inl (inr z) => KInt z
  | inr f => KFloat f
  end.

Global Instance dict_key_countable : Countable dict_key.
Proof.
  apply (inj_countable' dict_key_code dict_key_decode).
  intros []; reflexivity.
Defined.

(** ** The daemon's state and its surroundings *)

(** What the daemon prints, and the commands it hands to
    [subprocess.run(command, shell=True)]. *)
Inductive message :=
| LoadedRules (n : nat)                (* "Loaded {len(self.rules)} rules from ..." *)
| ConfigNotFound                       (* "Config file not found: ..." *)
| ErrorLoadingRules                    (* "Error loading rules: ..." *)
| ReloadingRules                       (* "Reloading rules..." *)
| ProcessingEvent (event_type : string) (event_data : list string)
| RuleMatched (name : json)            (* "Rule '...' matched. Executing actions." *)
| Executing (command : json)           (* "Executing: ..." *)
| ErrorExecuting (command : json).     (* "Error executing command ..." *)

Inductive effect :=
| Printed (m : message)
| Spawned (command : json).

(** [rules] and [last_event_time] are the fields of the object.  [clock]
    lists the readings of the event loop's monotonic clock, of which [ticks]
    have been taken; [spawn_raises] tells for which commands
    [subprocess.run] raises; [output] is everything printed and spawned so
    far, oldest first.  (The field [debounce_intervals] is never read nor
    written after [__init__] and is left out.) *)
Record world := World {
  rules : json;
  last_event_time : gmap dict_key float;
  clock : nat → float;
  ticks : nat;
  spawn_raises : json → bool;
  output : list effect;
}.

Definition with_rules (r : json) (w : world) : world :=
  World r (last_event_time w) (clock w) (ticks w) (spawn_raises w) (output w).

Definition with_last_event_time (t : gmap dict_key float) (w : world) : world :=
  World (rules w) t (clock w) (ticks w) (spawn_raises w) (output w).

Definition with_ticks (n : nat) (w : world) : world :=
  World (rules w) (last_event_time w) (clock w) n (spawn_raises w) (output w).

Definition with_output (o : list effect) (w : world) : world :=
  World (rules w) (last_event_time w) (clock w) (ticks w) (spawn_raises w) o.

(** The commands spawned, in order. *)
Definition spawned (o : list effect) : list json :=
  omap (fun e => match e with Spawned c => Some c | Printed _ => None end) o.

(** ** Methods as state transformers that may raise *)

Definition M (A : Type) : Type := world → res A * world.

Definition ret {A} (a : A) : M A := fun w => (Ok a, w).

Definition bind {A B} (c : M A) (k : A → M B) : M B :=
  fun w =>
    match c w with
    | (Ok a, w') => k a w'
    | (Raise e, w') => (Raise e, w')
    end.

Definition lift {A} (r : res A) : M A := fun w => (r, w).

Definition res_bind {A B} (r : res A) (k : A → res B) : res B :=
  match r with
  | Ok a => k a
  | Raise e => Raise e
  end.

Declare Scope daemon_scope.
Delimit Scope daemon_scope with daemon.

Notation "x <- c ;; k" := (bind c (fun x => k))
  (at level 100, c at next level, right associativity) : daemon_scope.
Notation "c ;; k" := (bind c (fun _ => k))
  (at level 100, right associativity) : daemon_scope.
Notation "x <~ r ;; k" := (bind (lift r) (fun x => k))
  (at level 100, r at next level, right associativity) : daemon_scope.
Notation "x <-- r ;; k" := (res_bind r (fun x => k))
  (at level 100, r at next level, right associativity) : daemon_scope.

Local Open Scope daemon_scope.

(** [print(...)] on a standard output that takes the message: the call
    returns.  (The methods with a [print] that can raise are given in
    [Piped] below.) *)
Definition print (m : message) : M unit :=
  fun w => (Ok tt, with_output (output w ++ [Printed m]) w).

(** [subprocess.run(command, shell=True)] inside [try]/[except Exception]:
    the error is printed and goes no further. *)
Definition run_guarded (command : json) : M unit :=
  fun w =>
    let o := output w ++ [Spawned command] in
    (Ok tt, with_output (if spawn_raises w command then o ++ [Printed (ErrorExecuting command)] else o) w).

(** [asyncio.get_event_loop().time()] *)
Definition time : M float :=
  fun w => (Ok (clock w (ticks w)), with_ticks (S (ticks w)) w).

Fixpoint for_each {A} (l : list A) (body : A → M unit) : M unit :=
  match l with
  | [] => ret tt
  | x :: l' => body x ;; for_each l' body
  end.

(** ** The methods of [HyperFlowDaemon] *)

(** What reading the configuration file comes to: the file is absent;
    [open] or [json.load] raises; or [json.load] returns a document. *)
Inductive config_read :=
| NoConfigFile
| ReadRaises
| Document (doc : json).

(** [load_rules] (lines 45-57).  [self.rules] is assigned as soon as
    [json.load] returns; [len] of a number, a boolean or [null] raises inside
    the [try] after that. *)
Definition load_rules (cfg : config_read) : M unit :=
  match cfg with
  | Document doc =>
      (fun w => (Ok tt, with_rules doc w)) ;;
      match Py.len doc with
      | Ok n => print (LoadedRules n)
      | Raise _ =>
          print ErrorLoadingRules ;;
          fun w => (Ok tt, with_rules (JArr []) w)
      end
  | NoConfigFile =>
      print ConfigNotFound ;;
      fun w => (Ok tt, with_rules (JArr []) w)
  | ReadRaises =>
      print ErrorLoadingRules ;;
      fun w => (Ok tt, with_rules (JArr []) w)
  end.

(** [__init__] (lines 37-43): the rules are loaded, then the debounce
    dictionary is created empty. *)
Definition init (clk : nat → float) (raises : json → bool) (cfg : config_read) : world :=
  let w := (load_rules cfg (World (JArr []) ∅ clk 0 raises [])).2 in
  with_last_event_time ∅ w.

(** [reload_handler] (lines 59-62), run on SIGHUP. *)
Definition reload_handler (cfg : config_read) : M unit :=
  print ReloadingRules ;;
  load_rules cfg.

(** [parse_event] (lines 72-79).  The method returns the pair
    [(None, None)] or [(event_type, data_parts)]; unpacking the two-way split
    raises [ValueError] unless the split has exactly two parts. *)
Definition parse_event (event_str : string)
    : res (option string * option (list string)) :=
  if negb (PyStr.contains ">>" event_str) then Ok (None, None)
  else
    match PyStr.split ">>" (Some 1%nat) event_str with
    | [event_type; event_data] =>
        let data_parts := PyStr.split "," None event_data in
        Ok (Some event_type, Some data_parts)
    | _ => Raise ValueError
    end.

(** The table of [check_condition] (lines 89-140): for each event type,
    the position of each property in the event data. *)
Definition property_map : gmap string (gmap string nat) :=
  list_to_map [
    ("openwindow",
       list_to_map [("address", 0); ("workspace", 1); ("class", 2); ("title", 3)]%nat);
    ("closewindow",
       list_to_map [("address", 0); ("workspace", 1); ("class", 2); ("title", 3)]%nat);
    ("activewindow", list_to_map [("class", 0); ("title", 1)]%nat);
    ("activewindowv2", list_to_map [("address", 0)]%nat);
    ("workspace", list_to_map [("name", 0)]%nat);
    ("workspacev2", list_to_map [("name", 0); ("id", 1)]%nat);
    ("destroyworkspacev2", list_to_map [("name", 0); ("id", 1)]%nat);
    ("windowtitle", list_to_map [("address", 0)]%nat);
    ("windowtitlev2", list_to_map [("address", 0); ("title", 1)]%nat);
    ("activelayout", list_to_map [("keyboard", 0); ("layout", 1)]%nat)
  ].

(** [event_property_map[property_name]] when [property_name in
    event_property_map]: the keys are strings, so only a string can be
    found; the test hashes [property_name] first. *)
Definition find_property (event_property_map : gmap string nat) (property_name : json)
    : res (option nat) :=
  _ <-- Py.hash property_name ;;
  match property_name with
  | JStr p => Ok (event_property_map !! p)
  | _ => Ok None
  end.

(** [a > e] and [a < e] on floats. *)
Definition float_gt (a e : float) : bool := PrimFloat.ltb e a.
Definition float_lt (a e : float) : bool := PrimFloat.ltb a e.

(** [float(actual_value) ? float(expected_value)] under [except ValueError]
    (lines 164-167 and 169-172); the left conversion runs first. *)
Definition compare_floats (cmp : float → float → bool)
    (actual_value : string) (expected_value : json) : res bool :=
  match Py.to_float (JStr actual_value) with
  | Ok a =>
      match Py.to_float expected_value with
      | Ok e => Ok (cmp a e)
      | Raise ValueError => Ok false
      | Raise x => Raise x
      end
  | Raise ValueError => Ok false
  | Raise x => Raise x
  end.

(** The string argument of [in], [startswith] and [endswith]. *)
Definition as_str (x : json) : res string :=
  match x with
  | JStr s => Ok s
  | _ => Raise TypeError
  end.

(** [check_condition] (lines 81-174) *)
Definition check_condition (condition : json) (event_data : list string)
    (event_type : string) : res bool :=
  property_name <-- Py.get condition "property" JNull ;;
  operator <-- Py.get condition "operator" JNull ;;
  expected_value <-- Py.get condition "value" JNull ;;
  let event_property_map := default ∅ (property_map !! event_type) in
  found <-- find_property event_property_map property_name ;;
  match found with
  | None => Ok false
  | Some index =>
      match event_data !! index with
      | None => Ok false
      | Some actual_value =>
          if Py.eq_str operator "equals" then
            Ok (Py.eq_str expected_value actual_value)
          else if Py.eq_str operator "contains" then
            e <-- as_str expected_value ;; Ok (PyStr.contains e actual_value)
          else if Py.eq_str operator "startswith" then
            e <-- as_str expected_value ;; Ok (PyStr.startswith actual_value e)
          else if Py.eq_str operator "endswith" then
            e <-- as_str expected_value ;; Ok (PyStr.endswith actual_value e)
          else if Py.eq_str operator "greater" then
            compare_floats float_gt actual_value expected_value
          else if Py.eq_str operator "less" then
            compare_floats float_lt actual_value expected_value
          else Ok false
      end
  end.

(** The loop over the conditions (lines 199-201): the first false condition
    ends it. *)
Fixpoint check_conditions (conditions : list json) (event_data : list string)
    (event_type : string) : res bool :=
  match conditions with
  | [] => Ok true
  | condition :: rest =>
      ok <-- check_condition condition event_data event_type ;;
      if ok then check_conditions rest event_data event_type else Ok false
  end.

(** The debounce block (lines 187-195).  [false] is the [return False] of
    line 194; [true] goes on to the conditions. *)
Definition check_debounce (rule_id debounce_ms : json) : M bool :=
  positive <~ Py.gt_zero debounce_ms ;;
  if positive : bool then
    current_time <- time ;;
    key <~ Py.hash rule_id ;;
    last_time <- (fun w => (Ok (default 0%float (last_event_time w !! key)), w)) ;;
    window <~ Py.div_1000 debounce_ms ;;
    if PrimFloat.ltb (PrimFloat.sub current_time last_time) window then ret false
    else
      (fun w => (Ok tt, with_last_event_time (<[key := current_time]> (last_event_time w)) w)) ;;
      ret true
  else ret true.

(** [should_execute_rule] (lines 176-203) *)
Definition should_execute_rule (rule : json) (event_type : string)
    (event_data : list string) : M bool :=
  enabled <~ Py.get rule "enabled" (JBool true) ;;
  if negb (Py.truthy enabled) then ret false
  else
    trigger <~ Py.get rule "trigger" (JObj ∅) ;;
    trigger_type <~ Py.get trigger "type" JNull ;;
    if negb (Py.eq_str trigger_type event_type) then ret false
    else
      rule_id <~ Py.get rule "id" (JStr "") ;;
      debounce_ms <~ Py.get trigger "debounce" (JInt 0) ;;
      pass <- check_debounce rule_id debounce_ms ;;
      if negb pass then ret false
      else
        conditions <~ Py.get rule "conditions" (JArr []) ;;
        items <~ Py.iter conditions ;;
        lift (check_conditions items event_data event_type).

(** [execute_actions] (lines 205-215) *)
Definition execute_actions (rule : json) : M unit :=
  actions <~ Py.get rule "actions" (JArr []) ;;
  items <~ Py.iter actions ;;
  for_each items (fun action =>
    command <~ Py.get action "command" JNull ;;
    if Py.truthy command then
      print (Executing command) ;;
      run_guarded command
    else ret tt).

(** [process_event] (lines 217-229) *)
Definition process_event (event_str : string) : M unit :=
  parsed <~ parse_event event_str ;;
  match parsed with
  | (Some event_type, Some event_data) =>
      if bool_decide (event_type = "") || bool_decide (event_data = []) then ret tt
      else
        print (ProcessingEvent event_type event_data) ;;
        items <- (fun w => (Py.iter (rules w), w)) ;;
        for_each items (fun rule =>
          fire <- should_execute_rule rule event_type event_data ;;
          if fire : bool then
            name <~ Py.get rule "name" (JStr "unnamed") ;;
            print (RuleMatched name) ;;
            execute_actions rule
          else ret tt)
  | _ => ret tt
  end.

(** ** Vocabulary of the specification *)

(** [sub] occurs in [s]. *)
Definition occurs (sub s : string) : Prop :=
  ∃ a b, s = a +:+ sub +:+ b.

(** [a] and [b] are what precedes and follows the first occurrence of [sep]
    in [s]: no occurrence starts further left. *)
Definition first_occurrence (sep s a b : string) : Prop :=
  s = a +:+ sep +:+ b ∧
  ∀ a' b', s = a' +:+ sep +:+ b' → (String.length a ≤ String.length a')%nat.

(** The field-name table (section 4.2): the value of [property] in the
    fields of an event of type [event_type], if the table resolves it and
    the event is long enough. *)
Definition field_of (event_type property : string) (event_data : list string)
    : option string :=
  index ← default ∅ (property_map !! event_type) !! property;
  event_data !! index.

(** The numeric comparison of two strings (section 4.3, greater / less):
    false unless both are numbers. *)
Definition numeric (cmp : float → float → bool) (actual expected : string) : bool :=
  match PyFloat.of_string actual, PyFloat.of_string expected with
  | Some a, Some e => cmp a e
  | _, _ => false
  end.

(** *** The rule document (sections 3 and 6)

    A rule is an object; a field may be missing where the daemon has a
    default.  [debounce] is an integer, not negative (and below [2^1023], so
    that the window in seconds is a finite float); the id is a scalar;
    every condition is an object with a string [value] and a scalar
    [property]; every action is an object. *)

Definition scalar (x : json) : bool :=
  match x with
  | JArr _ | JObj _ => false
  | _ => true
  end.

Definition array_of (ok : json → bool) (x : json) : bool :=
  match x with
  | JArr l => forallb ok l
  | _ => false
  end.

Definition condition_ok (c : json) : bool :=
  match c with
  | JObj m =>
      scalar (default JNull (m !! "property")) &&
      match m !! "value" with Some (JStr _) => true | _ => false end
  | _ => false
  end.

Definition action_ok (a : json) : bool :=
  match a with
  | JObj _ => true
  | _ => false
  end.

Definition trigger_ok (t : json) : bool :=
  match t with
  | JObj m =>
      match default (JInt 0) (m !! "debounce") with
      | JInt z => (0 <=? z) && (z <? 2 ^ 1023)
      | _ => false
      end
  | _ => false
  end.

Definition rule_ok (r : json) : bool :=
  match r with
  | JObj m =>
      trigger_ok (default (JObj ∅) (m !! "trigger")) &&
      scalar (default (JStr "") (m !! "id")) &&
      array_of condition_ok (default (JArr []) (m !! "conditions")) &&
      array_of action_ok (default (JArr []) (m !! "actions"))
  | _ => false
  end.

(** The commands of a rule's actions, in order (section 4.6); an action
    without a command, or with an empty one, has none. *)
Definition commands_of (rule : json) : list json :=
  match rule with
  | JObj m =>
      match default (JArr []) (m !! "actions") with
      | JArr actions =>
          filter (fun c => Py.truthy c = true)
            ((fun a => match a with
                       | JObj am => default JNull (am !! "command")
                       | _ => JNull
                       end) <$> actions)
      | _ => []
      end
  | _ => []
  end.

(** Matching every rule against one event, in document order (section 4.7):
    the rules that match, and the state the matcher leaves.  The matcher is
    [should_execute_rule]; each rule is judged in the state its predecessors
    left. *)
Fixpoint match_all (rs : list json) (event_type : string) (event_data : list string)
    (w : world) : list json * world :=
  match rs with
  | [] => ([], w)
  | rule :: rest =>
      let '(fire, w1) := should_execute_rule rule event_type event_data w in
      let '(matched, w2) := match_all rest event_type event_data w1 in
      (match fire with Ok true => rule :: matched | _ => matched end, w2)
  end.

(** A computation that neither reads nor writes what was printed and
    spawned: it runs the same whatever the output so far, and hands it on. *)
Definition silent {A} (c : M A) : Prop :=
  ∀ w o, c (with_output o w) = ((c w).1, with_output o (c w).2).

(** ** Sample data *)

Definition obj (fields : list (string * json)) : json := JObj (list_to_map fields).

(** The rule of the default configuration (lines 269-291). *)
Definition wf_001_trigger : gmap string json :=
  list_to_map [("type", JStr "openwindow"); ("debounce", JInt 100)].

Definition wf_001_conditions : list json :=
  [obj [("property", JStr "class"); ("operator", JStr "equals");
        ("value", JStr "spotify")]].

Definition wf_001_fields : gmap string json :=
  list_to_map
    [("id", JStr "wf_001");
     ("name", JStr "Auto-move Spotify to workspace 5");
     ("enabled", JBool true);
     ("trigger", JObj wf_001_trigger);
     ("conditions", JArr wf_001_conditions);
     ("actions", JArr [obj [("command", JStr "hyprctl dispatch movetoworkspace 5")]])].

Definition wf_001 : json := JObj wf_001_fields.

Definition spotify_line : string := "openwindow>>0xdead,1,spotify,Spotify - Song".
Definition firefox_line : string := "openwindow>>0xbeef,2,firefox,Mozilla Firefox".
Definition firefox_data : list string := ["0xbeef"; "2"; "firefox"; "Mozilla Firefox"].

Definition spotify_data : list string := ["0xdead"; "1"; "spotify"; "Spotify - Song"].

(** A reading of the clock, [ms] milliseconds after its origin. *)
Definition at_ms (ms : Z) : float :=
  PrimFloat.div (PrimFloat.of_uint63 (Uint63.of_Z ms)) 1000.

(** A clock whose first readings are [l]. *)
Definition readings (l : list float) : nat → float :=
  fun n => default (at_ms 3600000) (l !! n).

Definition quiet : json → bool := fun _ => false.

(** A daemon started on [cfg]; its clock reads 1000 s, then 50 ms and
    150 ms later; no command makes the executor raise. *)
Definition started (cfg : config_read) : world :=
  init (readings [at_ms 1000000; at_ms 1000050; at_ms 1000150]) quiet cfg.

Definition loaded : world := started (Document (JArr [wf_001])).

(** [loaded] after a Spotify window opened, and after a reload that follows. *)
Definition fired : world := (process_event spotify_line loaded).2.
Definition reloaded : world := (reload_handler (Document (JArr [wf_001])) fired).2.

(** A second rule for Spotify windows, and a rule triggered by the empty
    event type. *)
Definition wf_002_fields : gmap string json :=
  list_to_map
    [("id", JStr "wf_002");
     ("name", JStr "Announce the song");
     ("trigger", obj [("type", JStr "openwindow")]);
     ("conditions",
        JArr [obj [("property", JStr "title"); ("operator", JStr "contains");
                   ("value", JStr "Song")]]);
     ("actions", JArr [obj [("command", JStr "notify-send playing")]])].

Definition wf_002 : json := JObj wf_002_fields.



Definition workspace_above (value : string) : gmap string json :=
  list_to_map [("property", JStr "workspace"); ("operator", JStr "greater");
               ("value", JStr value)].


(** [wf_001] loaded, and four Spotify windows: at 1000 s, then 50 ms, 90 ms
    and 150 ms later. *)
Definition bursting : world :=
  init (readings [at_ms 1000000; at_ms 1000050; at_ms 1000090; at_ms 1000150]) quiet
    (Document (JArr [wf_001])).

(** [n] times the same line. *)
Fixpoint repeatedly (n : nat) (line : string) (w : world) : world :=
  match n with
  | O => w
  | S k => repeatedly k line (process_event line w).2
  end.

(** A rule that has no debounce window. *)
Definition undebounced (rule : json) : bool :=
  match rule with
  | JObj m =>
      match default (JObj ∅) (m !! "trigger") with
      | JObj t =>
          match default (JInt 0) (t !! "debounce") with
          | JInt z => z <=? 0
          | _ => false
          end
      | _ => false
      end
  | _ => false
  end.

(** [should_execute_rule] answers [True]. *)
Definition fires (rule : json) (event_type : string) (event_data : list string)
    (w : world) : bool :=
  match (should_execute_rule rule event_type event_data w).1 with
  | Ok true => true
  | _ => false
  end.

(** ** The listening loop *)

Module PyText.

(** The white space [str.strip()] removes, among the code points below
    256. *)
Definition is_space (c : ascii) : bool :=
  let n := PyFloat.code c in
  ((9 <=? n) && (n <=? 13)) || ((28 <=? n) && (n <=? 32)) || (n =? 133) || (n =? 160).

Fixpoint lstrip (l : list ascii) : list ascii :=
  match l with
  | c :: l' => if is_space c then lstrip l' else l
  | [] => []
  end.

(** [s.strip()] *)
Definition strip (s : string) : string :=
  String.string_of_list_ascii
    (reverse (lstrip (reverse (lstrip (String.list_ascii_of_string s))))).

End PyText.

(** What one turn of the loop of [listen_to_events] gets from the socket
    before the stream ends: a line whose bytes decode to [text]; a line
    whose bytes do not decode ([decode] raises); or a read that raises.  The
    end of the list is the empty read of a closed stream. *)
Inductive reading :=
| Line (text : string)
| Undecodable
| ReadFails.

(** What [listen_to_events] prints and does itself, kept apart from the
    output of the methods it calls. *)
Inductive loop_event :=
| ConnectedToSocket                    (* "Connected to Hyprland event socket." *)
| FailedToConnect                      (* "Failed to connect to Hyprland event socket: ..." *)
| ErrorReading                         (* "Error reading from socket: ..." *)
| WriterClosed.                        (* writer.close() *)

(** The [while True] loop (lines 241-248): [true] when it ends in the
    [except] branch. *)
Fixpoint read_loop (stream : list reading) (w : world) : bool * world :=
  match stream with
  | [] => (false, w)
  | Line text :: rest =>
      match process_event (PyText.strip text) w with
      | (Ok _, w') => read_loop rest w'
      | (Raise _, w') => (true, w')
      end
  | Undecodable :: _ | ReadFails :: _ => (true, w)
  end.

(** [listen_to_events] (lines 231-251); [connects] tells whether
    [open_unix_connection] returns. *)
Definition listen_to_events (connects : bool) (stream : list reading) (w : world)
    : list loop_event * world :=
  if connects then
    let '(failed, w') := read_loop stream w in
    ([ConnectedToSocket] ++ (if failed then [ErrorReading] else []) ++ [WriterClosed], w')
  else ([FailedToConnect], w).

(** ** Vocabulary of the further properties *)

(** The debounce window of [d] milliseconds lets the rule through: there
    is none, or it has passed since the recorded last fire. *)
Definition window_open (rule_id : json) (d : Z) (w : world) : Prop :=
  d ≤ 0 ∨
  ∃ key window,
    Py.hash rule_id = Ok key ∧
    Py.div_1000 (JInt d) = Ok window ∧
    PrimFloat.ltb
      (PrimFloat.sub (clock w (ticks w)) (default 0%float (last_event_time w !! key)))
      window = false.

(** [w'] comes after [w] in the life of a daemon between two reloads: the
    rules and the surroundings are the same, the output has grown at its
    end, the clock has been read some more, and each recorded last-fire time
    either was recorded in [w] or is one of the readings taken since. *)
Definition evolves (w w' : world) : Prop :=
  rules w' = rules w ∧
  clock w' = clock w ∧
  spawn_raises w' = spawn_raises w ∧
  (ticks w ≤ ticks w')%nat ∧
  output w `prefix_of` output w' ∧
  (∀ key, is_Some (last_event_time w !! key) → is_Some (last_event_time w' !! key)) ∧
  (∀ key t, last_event_time w' !! key = Some t →
     last_event_time w !! key = Some t ∨
     ∃ n, (ticks w ≤ n < ticks w')%nat ∧ t = clock w n).

Definition steady {A} (c : M A) : Prop := ∀ w, evolves w (c w).2.

(** The error messages for failed commands, in order. *)
Definition failures (o : list effect) : list json :=
  omap (fun e => match e with
                 | Printed (ErrorExecuting c) => Some c
                 | _ => None
                 end) o.


(** The comparison of [check_condition] (lines 154-174), once the field
    [actual_value] has been found. *)
Definition comparison (operator expected_value : json) (actual_value : string)
    : res bool :=
  if Py.eq_str operator "equals" then
    Ok (Py.eq_str expected_value actual_value)
  else if Py.eq_str operator "contains" then
    e <-- as_str expected_value ;; Ok (PyStr.contains e actual_value)
  else if Py.eq_str operator "startswith" then
    e <-- as_str expected_value ;; Ok (PyStr.startswith actual_value e)
  else if Py.eq_str operator "endswith" then
    e <-- as_str expected_value ;; Ok (PyStr.endswith actual_value e)
  else if Py.eq_str operator "greater" then
    compare_floats float_gt actual_value expected_value
  else if Py.eq_str operator "less" then
    compare_floats float_lt actual_value expected_value
  else Ok false.

(** The six operators of [check_condition]. *)
Definition operators : list string :=
  ["equals"; "contains"; "startswith"; "endswith"; "greater"; "less"].

(** Sample conditions on the class (third) and the workspace (second) field
    of a window event. *)
Definition on_field (property operator : string) (value : json) : gmap string json :=
  list_to_map [("property", JStr property); ("operator", JStr operator); ("value", value)].





(** ** The rule dialog of the editor ([editor.py]) *)

Module PyInt.

(** [int(s)] for a string, in base ten: white space around, a sign, then
    digits, with single underscores between digits.  [None] stands for the
    [ValueError] of any other text, and of more than 4300 digits. *)
Definition of_string (s : string) : option Z :=
  l ← PyFloat.drop_underscores None (PyFloat.to_ascii <$> String.list_ascii_of_string s);
  let '(neg, r) := PyFloat.take_sign (PyFloat.strip l) in
  match PyFloat.span_digits r with
  | (d :: ds, []) =>
      if (4300 <? length (d :: ds))%nat then None
      else Some (if neg then - PyFloat.digits_value (d :: ds)
                 else PyFloat.digits_value (d :: ds))
  | _ => None
  end.

End PyInt.

(** One row of [self.conditions_widgets]: the current text of the two
    combo boxes and the text of the value field. *)
Record condition_row := ConditionRow {
  property_combo : string;
  operator_combo : string;
  value_edit : string
}.

(** What [get_rule_data] reads of a [RuleDialog]: the rule the dialog was
    opened with (the empty dictionary for a new rule) and the state of its
    widgets; [actions_widgets] holds the text of each command field. *)
Record RuleDialog := {
  rule_data : gmap string json;
  name_edit : string;
  enabled_check : bool;
  trigger_combo : string;
  debounce_edit : string;
  conditions_widgets : list condition_row;
  actions_widgets : list string
}.

(** [self.conditions] as [get_rule_data] collects it (lines 228-238) *)
Definition dialog_conditions (self : RuleDialog) : list json :=
  omap (fun cw =>
          let prop := property_combo cw in
          let operator := operator_combo cw in
          let value := value_edit cw in
          if negb (bool_decide (prop = "")) && negb (bool_decide (value = "")) then
            Some (obj [("property", JStr prop); ("operator", JStr operator);
                       ("value", JStr value)])
          else None)
       (conditions_widgets self).

(** The actions (lines 240-246) *)
Definition dialog_actions (self : RuleDialog) : list json :=
  omap (fun command =>
          if negb (bool_decide (command = "")) then Some (obj [("command", JStr command)])
          else None)
       (actions_widgets self).

(** [trigger_data] (lines 248-257) *)
Definition dialog_trigger (self : RuleDialog) : gmap string json :=
  let trigger_data : gmap string json := {[ "type" := JStr (trigger_combo self) ]} in
  match PyInt.of_string (debounce_edit self) with
  | Some debounce =>
      if 0 <? debounce then <["debounce" := JInt debounce]> trigger_data
      else trigger_data
  | None => trigger_data
  end.

(** [get_rule_data] (lines 226-266); [fresh_id] is [os.urandom(4).hex()]. *)
Definition get_rule_data (self : RuleDialog) (fresh_id : string) : gmap string json :=
  list_to_map [
    ("id", default (JStr fresh_id) (rule_data self !! "id"));
    ("name", JStr (name_edit self));
    ("enabled", JBool (enabled_check self));
    ("trigger", JObj (dialog_trigger self));
    ("conditions", JArr (dialog_conditions self));
    ("actions", JArr (dialog_actions self))
  ].

(** A dialog for a new rule that moves Spotify, and a debounce text of 312
    digits. *)
Definition long_pause : string := String.string_of_list_ascii (replicate 312 "9"%char).

Definition spotify_dialog (debounce : string) : RuleDialog := {|
  rule_data := ∅;
  name_edit := "Spotify";
  enabled_check := true;
  trigger_combo := "openwindow";
  debounce_edit := debounce;
  conditions_widgets := [ConditionRow "class" "equals" "spotify"; ConditionRow "title" "contains" ""];
  actions_widgets := ["hyprctl dispatch movetoworkspace 5"; ""]
|}.

(** A rule whose debounce window is [2^1034] milliseconds. *)
Definition wf_006_trigger : gmap string json :=
  list_to_map [("type", JStr "openwindow"); ("debounce", JInt (2 ^ 1034))].

Definition wf_006_fields : gmap string json :=
  list_to_map [("id", JStr "wf_006");
               ("trigger", JObj wf_006_trigger);
               ("actions", JArr [obj [("command", JStr "notify-send late")]])].

(** Two rules saved from the dialog, and a daemon started on them. *)
Definition saved : list (RuleDialog * string) :=
  [(spotify_dialog "200", "c0ffee00"); (spotify_dialog "soon", "deadbeef")].

Definition edited : world :=
  started (Document (JArr ((fun entry => JObj (get_rule_data entry.1 entry.2)) <$> saved))).

(** ** Standard output that can fail

    [print] writes to standard output, and the write can raise: the pipe
    the daemon was started with is closed or full ([BrokenPipeError], an
    [OSError]), or the text cannot be encoded ([UnicodeEncodeError], a
    [ValueError]).  In the methods above every [print] returns.  Here the
    methods that print are given again, with a [print] that can raise. *)

(** For what has been written so far, the exception the next [print]
    raises, if any: [refuses] for the messages of the methods,
    [refuses_notice] for the three messages of [listen_to_events]. *)
Record stdout := Stdout {
  refuses : list effect → message → option exn;
  refuses_notice : list effect → loop_event → option exn
}.

(** A standard output that takes everything. *)
Definition accepting : stdout := Stdout (fun _ _ => None) (fun _ _ => None).

(** A standard output that takes everything but the messages [m] names,
    on which it raises [BrokenPipeError]. *)
Definition refusing (m : message → bool) : stdout :=
  Stdout (fun _ msg => if m msg then Some OSError else None) (fun _ _ => None).

Module Piped.

Definition print (out : stdout) (m : message) : M unit :=
  fun w =>
    match refuses out (output w) m with
    | Some e => (Raise e, w)
    | None => (Ok tt, with_output (output w ++ [Printed m]) w)
    end.

(** [try: c] / [except Exception: handler] *)
Definition try_except {A} (c handler : M A) : M A :=
  fun w =>
    match c w with
    | (Ok a, w') => (Ok a, w')
    | (Raise _, w') => handler w'
    end.

(** [load_rules] (lines 45-57).  The prints of lines 51 and 53 are inside
    the [try]; the print of line 56 is in the handler, before
    [self.rules = []].  (Whatever [open] or [json.load] raises is caught;
    it stands here as [OSError].) *)
Definition load_rules (out : stdout) (cfg : config_read) : M unit :=
  try_except
    (match cfg with
     | Document doc =>
         (fun w => (Ok tt, with_rules doc w)) ;;
         n <~ Py.len doc ;;
         print out (LoadedRules n)
     | NoConfigFile =>
         print out ConfigNotFound ;;
         fun w => (Ok tt, with_rules (JArr []) w)
     | ReadRaises => fun w => (Raise OSError, w)
     end)
    (print out ErrorLoadingRules ;;
     fun w => (Ok tt, with_rules (JArr []) w)).

(** [subprocess.run(command, shell=True)] (line 213): the command is handed
    over, and the call raises for the commands [spawn_raises] names. *)
Definition spawn (command : json) : M unit :=
  fun w =>
    (if spawn_raises w command then Raise OSError else Ok tt,
     with_output (output w ++ [Spawned command]) w).

(** [execute_actions] (lines 205-215): the print of line 212 is inside
    the [try], the print of line 215 is the handler. *)
Definition execute_actions (out : stdout) (rule : json) : M unit :=
  actions <~ Py.get rule "actions" (JArr []) ;;
  items <~ Py.iter actions ;;
  for_each items (fun action =>
    command <~ Py.get action "command" JNull ;;
    if Py.truthy command then
      try_except
        (print out (Executing command) ;; spawn command)
        (print out (ErrorExecuting command))
    else ret tt).

(** [process_event] (lines 217-229): neither print is inside a [try]. *)
Definition process_event (out : stdout) (event_str : string) : M unit :=
  parsed <~ parse_event event_str ;;
  match parsed with
  | (Some event_type, Some event_data) =>
      if bool_decide (event_type = "") || bool_decide (event_data = []) then ret tt
      else
        print out (ProcessingEvent event_type event_data) ;;
        items <- (fun w => (Py.iter (rules w), w)) ;;
        for_each items (fun rule =>
          fire <- should_execute_rule rule event_type event_data ;;
          if fire : bool then
            name <~ Py.get rule "name" (JStr "unnamed") ;;
            print out (RuleMatched name) ;;
            execute_actions out rule
          else ret tt)
  | _ => ret tt
  end.

(** The [while True] loop (lines 241-246): [true] when an exception ends
    it. *)
Fixpoint read_loop (out : stdout) (stream : list reading) (w : world) : bool * world :=
  match stream with
  | [] => (false, w)
  | Line text :: rest =>
      match process_event out (PyText.strip text) w with
      | (Ok _, w') => read_loop out rest w'
      | (Raise _, w') => (true, w')
      end
  | Undecodable :: _ | ReadFails :: _ => (true, w)
  end.

(** [listen_to_events] (lines 231-251).  The print of line 235 is inside
    the first [try], so when it raises the connection counts as failed (and
    the writer is left open); the prints of lines 237 and 248 are in
    handlers, and what they raise leaves the method, the second after the
    [finally] has closed the writer. *)
Definition listen_to_events (out : stdout) (connects : bool) (stream : list reading)
    (w : world) : res unit * list loop_event * world :=
  let failed_to_connect :=
    match refuses_notice out (output w) FailedToConnect with
    | Some e => (Raise e, [], w)
    | None => (Ok tt, [FailedToConnect], w)
    end in
  if connects then
    match refuses_notice out (output w) ConnectedToSocket with
    | Some _ => failed_to_connect
    | None =>
        let '(failed, w') := read_loop out stream w in
        if failed : bool then
          match refuses_notice out (output w') ErrorReading with
          | Some e => (Raise e, [ConnectedToSocket; WriterClosed], w')
          | None => (Ok tt, [ConnectedToSocket; ErrorReading; WriterClosed], w')
          end
        else (Ok tt, [ConnectedToSocket; WriterClosed], w')
    end
  else failed_to_connect.

End Piped.

(** An executor on which [subprocess.run] raises for a command that is
    not a string, and a daemon with it. *)
Definition strict : json → bool :=
  fun command => match command with JStr _ => false | _ => true end.

Definition careful : world := World (JArr []) ∅ (readings []) 0 strict [].

(** A rule with three commands, the second a number. *)
Definition wf_007_actions : list json :=
  [obj [("command", JStr "notify-send one")]; obj [("command", JInt 2)];
   obj [("command", JStr "notify-send three")]].

Definition wf_007_fields : gmap string json :=
  list_to_map [("id", JStr "wf_007"); ("actions", JArr wf_007_actions)].

(** [workspace] below [value]. *)
Definition workspace_below (value : string) : gmap string json :=
  list_to_map [("property", JStr "workspace"); ("operator", JStr "less");
               ("value", JStr value)].

(** * Properties *)

(** ** Strings *)

Module PyStrFacts.
Import PyStr.

Lemma app_cons c a s : String c a +:+ s = String c (a +:+ s).
Proof. reflexivity. Qed.

Lemma startswith_nil s : startswith s "" = true.
Proof. by destruct s. Qed.

Lemma startswith_cons a p b s :
  startswith (String b s) (String a p) = true ↔ a = b ∧ startswith s p = true.
Proof. simpl. case_decide; [tauto|]. split; [done|tauto]. Qed.

Lemma startswith_occurs s p : startswith s p = true ↔ ∃ r, s = p +:+ r.
Proof.
  revert s. induction p as [|a p IH]; intros s.
  - rewrite startswith_nil. split; [eauto|done].
  - destruct s as [|b s].
    + split; [done|]. by intros [r ?].
    + rewrite startswith_cons, IH. split.
      * intros [-> [r ->]]. by exists r.
      * intros [r Hr]. rewrite app_cons in Hr. inversion Hr. eauto.
Qed.

Lemma contains_occurs sub s : contains sub s = true ↔ occurs sub s.
Proof.
  unfold occurs. induction s as [|c s IH].
  - cbn [contains]. rewrite orb_false_r, startswith_occurs. split.
    + intros [r Hr]. by exists "", r.
    + intros ([|??] & b & Hab); [by exists b|done].
  - cbn [contains]. rewrite orb_true_iff, IH, startswith_occurs. split.
    + intros [[r Hr]|(a & b & Hab)].
      * by exists "", r.
      * exists (String c a), b. by rewrite app_cons, Hab.
    + intros ([|c' a] & b & Hab).
      * left. by exists b.
      * right. rewrite app_cons in Hab. injection Hab as -> ->. eauto.
Qed.

Lemma not_contains_occurs sub s : contains sub s = false ↔ ¬ occurs sub s.
Proof. rewrite <-contains_occurs. by destruct (contains sub s). Qed.

Lemma split_go_exhausted sep k s : split_go sep (Some 0%nat) k s = [drop k s].
Proof.
  revert k. induction s as [|c s IH]; intros [|k]; simpl; try done.
  by rewrite (IH 0%nat).
Qed.

Lemma drop_app p r : drop (String.length p) (p +:+ r) = r.
Proof. induction p as [|a p IH]; [done|]. rewrite app_cons. apply IH. Qed.

(** A two-way split cuts at the first occurrence of the separator. *)
Lemma split_once sep s :
  sep ≠ "" → occurs sep s →
  ∃ a b, split sep (Some 1%nat) s = [a; b] ∧ first_occurrence sep s a b.
Proof.
  intros Hsep. unfold split. induction s as [|c s IH]; intros Hocc.
  - destruct Hocc as ([|??] & b & Hab); [|done]. by destruct sep.
  - cbn [split_go may_split andb one_less fmap option_fmap option_map Nat.pred].
    destruct (startswith (String c s) sep) eqn:Hst.
    + apply startswith_occurs in Hst as [r Hr].
      exists "", r. rewrite split_go_exhausted. split; [|split].
      * destruct sep as [|c' sep]; [done|]. rewrite app_cons in Hr.
        injection Hr as -> ->. simpl. by rewrite Nat.sub_0_r, drop_app.
      * done.
      * intros; simpl; lia.
    + assert (occurs sep s) as Hs.
      { destruct Hocc as ([|c' a] & b & Hab).
        - assert (startswith (String c s) sep = true); [|congruence].
          apply startswith_occurs. by exists b.
        - rewrite app_cons in Hab. injection Hab as -> ->. by exists a, b. }
      destruct (IH Hs) as (a & b & -> & Hab & Hmin).
      exists (String c a), b. split; [done|]. split.
      * by rewrite app_cons, <-Hab.
      * intros [|c' a'] b' Hab'.
        -- assert (startswith (String c s) sep = true); [|congruence].
           apply startswith_occurs. by exists b'.
        -- rewrite app_cons in Hab'. injection Hab' as -> ->.
           simpl. apply le_n_S. eauto.
Qed.

Lemma join_cons sep c f fs :
  join sep (String c f :: fs) = String c (join sep (f :: fs)).
Proof. by destruct fs. Qed.

Lemma occurs_cons sub c s :
  occurs sub (String c s) → startswith (String c s) sub = true ∨ occurs sub s.
Proof.
  intros ([|c' a] & b & Hab).
  - left. apply startswith_occurs. by exists b.
  - right. rewrite app_cons in Hab. injection Hab as -> ->. by exists a, b.
Qed.

(** An unlimited split on a comma: the fields are free of commas and give
    the string back when joined by commas. *)
Lemma split_comma s :
  let fields := split "," None s in
  fields ≠ [] ∧ join "," fields = s ∧ Forall (fun f => ¬ occurs "," f) fields.
Proof.
  unfold split. induction s as [|c s (Hne & Hjoin & Hall)].
  - simpl. repeat split; [done|]. constructor; [|done].
    intros ([|??] & b & Hab); done.
  - cbn [split_go may_split andb one_less fmap option_fmap option_map
         String.length Nat.sub startswith].
    case_decide as Hc.
    + subst c. rewrite startswith_nil.
      destruct (split_go "," None 0 s) as [|f fs] eqn:Hgo; [done|].
      repeat split; [done| |].
      * change (join "," ("" :: f :: fs)) with ("" +:+ "," +:+ join "," (f :: fs)).
        by rewrite Hjoin.
      * constructor; [|done]. intros ([|??] & b & Hab); done.
    + destruct (split_go "," None 0 s) as [|f fs] eqn:Hgo; [done|].
      repeat split; [done| |].
      * by rewrite join_cons, Hjoin.
      * inversion_clear Hall as [|?? Hf Hfs]. constructor; [|done].
        intros [Hst|Hocc]%occurs_cons; [|done].
        simpl in Hst. by case_decide.
Qed.

End PyStrFacts.

(** ** Parsing *)

Example parse_event_openwindow :
  parse_event spotify_line = Ok (Some "openwindow", Some spotify_data).
Proof. reflexivity. Qed.

Example parse_event_first_delimiter :
  parse_event "a>>>b>>c,,d," = Ok (Some "a", Some [">b>>c"; ""; "d"; ""]).
Proof. reflexivity. Qed.

(** C5. A line without the delimiter [>>] parses to nothing.  A line with
    it parses to an event: the type is what precedes the first occurrence of
    [>>], and the fields are the remainder cut at every comma (joined by
    commas they give the remainder back, character for character, and no
    field contains a comma). *)
Theorem parse_event_spec (line : string) :
  (¬ occurs ">>" line → parse_event line = Ok (None, None)) ∧
  (occurs ">>" line →
     ∃ event_type fields,
       parse_event line = Ok (Some event_type, Some fields) ∧
       first_occurrence ">>" line event_type (PyStr.join "," fields) ∧
       fields ≠ [] ∧
       Forall (fun f => ¬ occurs "," f) fields).
Proof.
  unfold parse_event. split.
  - intros Hno%PyStrFacts.not_contains_occurs. by rewrite Hno.
  - intros Hocc.
    destruct (PyStrFacts.split_once ">>" line) as (a & b & -> & Hfirst); [done..|].
    apply PyStrFacts.contains_occurs in Hocc as ->. cbn [negb].
    destruct (PyStrFacts.split_comma b) as (Hne & Hjoin & Hall).
    exists a, (PyStr.split "," None b). by rewrite Hjoin.
Qed.

Lemma parse_event_spec_witness :
  parse_event "openwindow>0xdead" = Ok (None, None) ∧
  ∃ event_type fields,
    parse_event spotify_line = Ok (Some event_type, Some fields) ∧
    first_occurrence ">>" spotify_line event_type (PyStr.join "," fields) ∧
    fields ≠ [] ∧
    Forall (fun f => ¬ occurs "," f) fields.
Proof.
  split.
  - apply (proj1 (parse_event_spec "openwindow>0xdead")).
    apply PyStrFacts.not_contains_occurs. reflexivity.
  - apply (proj2 (parse_event_spec spotify_line)).
    exists "openwindow", "0xdead,1,spotify,Spotify - Song". reflexivity.
Defined.

(** C9. A line that begins with [>>] parses to an event whose type is the
    empty string, with its fields; processing it changes nothing: no rule is
    evaluated, nothing is printed or spawned, no debounce entry is
    written. *)
Theorem empty_type_dropped (rest : string) (w : world) :
  parse_event (">>" +:+ rest) = Ok (Some "", Some (PyStr.split "," None rest)) ∧
  process_event (">>" +:+ rest) w = (Ok tt, w).
Proof.
  assert (parse_event (">>" +:+ rest)
          = Ok (Some "", Some (PyStr.split "," None rest))) as Hparse.
  { assert (occurs ">>" (">>" +:+ rest)) as Hocc by (by exists "", rest).
    unfold parse_event.
    destruct (PyStrFacts.split_once ">>" (">>" +:+ rest))
      as (a & b & -> & Heq & Hmin); [done..|].
    apply PyStrFacts.contains_occurs in Hocc as ->. cbn [negb].
    specialize (Hmin "" rest eq_refl).
    destruct a as [|c a]; [|simpl in Hmin; lia].
    by apply (inj (String.app ">>")) in Heq as <-. }
  split; [done|].
  unfold process_event, bind, lift. by rewrite Hparse.
Qed.

(** ** The enabled gate *)

(** C6. A rule whose [enabled] field is [false] never fires: whatever the
    event, the clock and the debounce state, [should_execute_rule] returns
    [False] and leaves the state as it was. *)
Theorem disabled_rule_never_fires (m : gmap string json) (event_type : string)
    (event_data : list string) (w : world) :
  m !! "enabled" = Some (JBool false) →
  should_execute_rule (JObj m) event_type event_data w = (Ok false, w).
Proof.
  intros Henabled. unfold should_execute_rule, bind, lift, Py.get.
  by rewrite Henabled.
Qed.

(** [wf_001] switched off, on the Spotify window that fires it when it is
    switched on. *)
Lemma disabled_rule_never_fires_witness :
  should_execute_rule (JObj (<["enabled" := JBool false]> wf_001_fields))
    "openwindow" spotify_data loaded
  = (Ok false, loaded).
Proof. apply disabled_rule_never_fires. reflexivity. Defined.

Example enabled_rule_fires :
  (should_execute_rule wf_001 "openwindow" spotify_data loaded).1 = Ok true.
Proof. reflexivity. Qed.

Example rule_without_enabled_fires :
  (should_execute_rule wf_002 "openwindow" spotify_data loaded).1 = Ok true.
Proof. reflexivity. Qed.

(** ** Reloading *)



(** A reload whose document is a list of rules replaces the rule set by
    that list. *)
Lemma valid_reload_replaces_rules (rs : list json) (w : world) :
  reload_handler (Document (JArr rs)) w
  = (Ok tt,
     with_rules (JArr rs)
       (with_output
          (output w ++ [Printed ReloadingRules; Printed (LoadedRules (length rs))]) w)).
Proof.
  unfold reload_handler, load_rules, bind, print, with_rules, with_output. cbn.
  by rewrite <-app_assoc.
Qed.

(** C2, as the daemon does it: a reload, successful or not, leaves the
    debounce state as it is; every last-fire timestamp carries over. *)
Theorem reload_keeps_debounce_state (cfg : config_read) (w : world) :
  last_event_time (reload_handler cfg w).2 = last_event_time w.
Proof.
  unfold reload_handler, load_rules, bind, print.
  destruct cfg as [| |doc]; cbn; [done..|].
  by destruct (Py.len doc).
Qed.

(** C2 as stated fails here: [wf_001] fired at 1000 s.  After a successful
    reload its timestamp is still recorded, and the event arriving 50 ms
    after the fire is suppressed; with the timestamps cleared it would
    fire. *)
Lemma reload_keeps_cooldown :
  last_event_time fired !! KStr "wf_001" = Some (at_ms 1000000) ∧
  (reload_handler (Document (JArr [wf_001])) fired).1 = Ok tt ∧
  last_event_time reloaded !! KStr "wf_001" = Some (at_ms 1000000) ∧
  last_event_time reloaded !! KStr "wf_001" ≠ None ∧
  (should_execute_rule wf_001 "openwindow" spotify_data reloaded).1 = Ok false ∧
  (should_execute_rule wf_001 "openwindow" spotify_data
     (with_last_event_time ∅ reloaded)).1 = Ok true.
Proof. vm_compute. repeat split. discriminate. Qed.

(** ** Debouncing *)

(** The debounce block with a window of [d > 0] milliseconds: one reading
    of the clock, then either nothing more, or the reading recorded. *)
Lemma check_debounce_window (rule_id : json) (w : world) (key : dict_key) (d : Z)
    (window : float) :
  Py.hash rule_id = Ok key →
  0 < d →
  Py.div_1000 (JInt d) = Ok window →
  check_debounce rule_id (JInt d) w
  = if PrimFloat.ltb
         (PrimFloat.sub (clock w (ticks w)) (default 0%float (last_event_time w !! key)))
         window
    then (Ok false, with_ticks (S (ticks w)) w)
    else (Ok true,
          with_last_event_time (<[key := clock w (ticks w)]> (last_event_time w))
            (with_ticks (S (ticks w)) w)).
Proof.
  intros Hkey Hd Hwindow.
  unfold check_debounce, bind, lift, time, ret.
  cbn [Py.gt_zero]. apply Z.ltb_lt in Hd as ->.
  rewrite Hkey, Hwindow. cbn [last_event_time with_ticks].
  by destruct (PrimFloat.ltb _ _).
Qed.



(** [wf_001] on a burst of Spotify windows: the first fires; those 50 ms
    and 90 ms later are suppressed and leave the recorded time at 1000 s;
    the one 150 ms later fires, though only 60 ms after the last suppressed
    one. *)
Example burst_does_not_slide_window :
  spawned (output (repeatedly 1 spotify_line bursting))
  = [JStr "hyprctl dispatch movetoworkspace 5"] ∧
  spawned (output (repeatedly 3 spotify_line bursting))
  = [JStr "hyprctl dispatch movetoworkspace 5"] ∧
  last_event_time (repeatedly 3 spotify_line bursting) !! KStr "wf_001"
  = Some (at_ms 1000000) ∧
  spawned (output (repeatedly 4 spotify_line bursting))
  = [JStr "hyprctl dispatch movetoworkspace 5"; JStr "hyprctl dispatch movetoworkspace 5"] ∧
  last_event_time (repeatedly 4 spotify_line bursting) !! KStr "wf_001"
  = Some (at_ms 1000150).
Proof. repeat split; reflexivity. Qed.

(** Past the gates: an enabled rule whose trigger type is the event's and
    whose debounce window has passed records the reading of the clock, then
    answers what its conditions answer. *)
Lemma should_execute_rule_elapsed (m t : gmap string json) (event_type : string)
    (event_data : list string) (w : world) (d : Z) (key : dict_key) (window : float)
    (conditions : json) (items : list json) :
  Py.truthy (default (JBool true) (m !! "enabled")) = true →
  m !! "trigger" = Some (JObj t) →
  t !! "type" = Some (JStr event_type) →
  t !! "debounce" = Some (JInt d) →
  0 < d →
  Py.div_1000 (JInt d) = Ok window →
  Py.hash (default (JStr "") (m !! "id")) = Ok key →
  PrimFloat.ltb
    (PrimFloat.sub (clock w (ticks w)) (default 0%float (last_event_time w !! key)))
    window = false →
  default (JArr []) (m !! "conditions") = conditions →
  Py.iter conditions = Ok items →
  should_execute_rule (JObj m) event_type event_data w
  = (check_conditions items event_data event_type,
     with_last_event_time (<[key := clock w (ticks w)]> (last_event_time w))
       (with_ticks (S (ticks w)) w)).
Proof.
  intros Henabled Htrigger Htype Hdebounce Hd Hwindow Hkey Helapsed Hconds Hiter.
  pose proof (check_debounce_window _ w key d window Hkey Hd Hwindow) as Hgate.
  rewrite Helapsed in Hgate.
  unfold should_execute_rule, bind, lift, ret, Py.get.
  rewrite Henabled, Htrigger. cbn [negb default from_option id].
  rewrite Htype, Hdebounce. cbn [default from_option id Py.eq_str].
  rewrite bool_decide_eq_true_2 by done. cbn [negb].
  rewrite Hgate. cbn [negb]. by rewrite Hconds, Hiter.
Qed.

(** C3. The debounce check runs before the conditions and records the fire
    time there: for an enabled rule with a window of [d > 0] milliseconds,
    whose trigger type is the event's and whose window has passed, the
    last-fire time of the rule becomes the reading of the clock even though
    one of its conditions is false and the rule does not fire. *)
Theorem debounce_recorded_before_conditions (m t : gmap string json)
    (event_type : string) (event_data : list string) (w : world) (d : Z)
    (key : dict_key) (window : float) (conditions : list json) :
  Py.truthy (default (JBool true) (m !! "enabled")) = true →
  m !! "trigger" = Some (JObj t) →
  t !! "type" = Some (JStr event_type) →
  t !! "debounce" = Some (JInt d) →
  0 < d →
  Py.div_1000 (JInt d) = Ok window →
  Py.hash (default (JStr "") (m !! "id")) = Ok key →
  PrimFloat.ltb
    (PrimFloat.sub (clock w (ticks w)) (default 0%float (last_event_time w !! key)))
    window = false →
  m !! "conditions" = Some (JArr conditions) →
  check_conditions conditions event_data event_type = Ok false →
  ∃ w',
    should_execute_rule (JObj m) event_type event_data w = (Ok false, w') ∧
    last_event_time w' = <[key := clock w (ticks w)]> (last_event_time w) ∧
    last_event_time w' !! key = Some (clock w (ticks w)).
Proof.
  intros Henabled Htrigger Htype Hdebounce Hd Hwindow Hkey Helapsed Hconds Hfalse.
  eexists. split; [|split].
  - erewrite should_execute_rule_elapsed; [by rewrite Hfalse|try done..].
    by rewrite Hconds.
  - done.
  - cbn. apply lookup_insert_eq.
Qed.

(** [wf_001], at 1000 s, on a Firefox window: the class is not Spotify's
    and the rule does not fire, yet 1000 s is recorded as its last fire. *)
Lemma debounce_recorded_before_conditions_witness :
  ∃ w',
    should_execute_rule wf_001 "openwindow" firefox_data loaded = (Ok false, w') ∧
    last_event_time w' = <[KStr "wf_001" := at_ms 1000000]> (last_event_time loaded) ∧
    last_event_time w' !! KStr "wf_001" = Some (at_ms 1000000).
Proof.
  apply (debounce_recorded_before_conditions wf_001_fields wf_001_trigger
           "openwindow" firefox_data loaded 100 (KStr "wf_001") (at_ms 100)
           wf_001_conditions);
    first [reflexivity | lia].
Defined.

(** The slot is spent: the Spotify window that opens 50 ms after the
    Firefox window is suppressed, though the rule has not fired at all. *)
Example spotify_after_firefox_suppressed :
  spawned (output (process_event spotify_line (process_event firefox_line loaded).2).2) = [] ∧
  spawned (output (process_event spotify_line loaded).2)
  = [JStr "hyprctl dispatch movetoworkspace 5"].
Proof. split; reflexivity. Qed.

(** ** Conditions *)

Example float_of_text :
  PyFloat.of_string "1" = Some 1%float ∧
  PyFloat.of_string " 1_000.5e-3 " = Some (PrimFloat.div 2001 2000) ∧
  PyFloat.of_string "-Infinity" = Some neg_infinity ∧
  PyFloat.of_string "abc" = None ∧
  PyFloat.of_string "1e" = None ∧
  PyFloat.of_string "" = None.
Proof. repeat split; reflexivity. Qed.

Lemma compare_floats_strings (cmp : float → float → bool) (actual expected : string) :
  compare_floats cmp actual (JStr expected) = Ok (numeric cmp actual expected).
Proof.
  unfold compare_floats, numeric, Py.to_float.
  destruct (PyFloat.of_string actual); [|done].
  by destruct (PyFloat.of_string expected).
Qed.

(** C7. A [greater] or [less] condition on strings never raises.  When the
    property resolves to a field of the event, the condition is the
    comparison of the two numbers if both the field and the expected value
    are text of a float ([greater]: the value is below the field; [less]:
    the field is below the value), and false if either is not; when the
    property does not resolve, it is false. *)
Theorem numeric_condition_total (c : gmap string json) (event_type property value : string)
    (event_data : list string) :
  c !! "property" = Some (JStr property) →
  c !! "value" = Some (JStr value) →
  (c !! "operator" = Some (JStr "greater") →
   check_condition (JObj c) event_data event_type
   = Ok (match field_of event_type property event_data with
         | Some actual =>
             match PyFloat.of_string actual, PyFloat.of_string value with
             | Some a, Some e => PrimFloat.ltb e a
             | _, _ => false
             end
         | None => false
         end)) ∧
  (c !! "operator" = Some (JStr "less") →
   check_condition (JObj c) event_data event_type
   = Ok (match field_of event_type property event_data with
         | Some actual =>
             match PyFloat.of_string actual, PyFloat.of_string value with
             | Some a, Some e => PrimFloat.ltb a e
             | _, _ => false
             end
         | None => false
         end)).
Proof.
  intros Hproperty Hvalue.
  split; intros Hoperator;
    unfold check_condition, find_property, res_bind, Py.get, field_of;
    rewrite Hproperty, Hvalue, Hoperator; cbn [default from_option id Py.hash];
    (destruct (default ∅ (property_map !! event_type) !! property) as [index|];
       [|done]);
    cbn [mbind option_bind];
    (destruct (event_data !! index) as [actual|]; [|done]);
    cbn [Py.eq_str];
    rewrite !bool_decide_eq_false_2 by done;
    rewrite bool_decide_eq_true_2 by done;
    rewrite compare_floats_strings;
    reflexivity.
Qed.

(** On the Spotify event, whose workspace field is ["1"]: greater than
    ["0"] holds (1 > 0) and greater than ["2"] does not; less than ["2"]
    holds (1 < 2) and less than ["0"] does not; against ["abc"] both are
    false, and nothing is raised. *)
Lemma numeric_condition_total_witness :
  check_condition (JObj (workspace_above "0")) spotify_data "openwindow" = Ok true ∧
  check_condition (JObj (workspace_above "2")) spotify_data "openwindow" = Ok false ∧
  check_condition (JObj (workspace_above "abc")) spotify_data "openwindow" = Ok false ∧
  check_condition (JObj (workspace_below "2")) spotify_data "openwindow" = Ok true ∧
  check_condition (JObj (workspace_below "0")) spotify_data "openwindow" = Ok false ∧
  check_condition (JObj (workspace_below "abc")) spotify_data "openwindow" = Ok false.
Proof.
  split_and!.
  - apply (proj1 (numeric_condition_total (workspace_above "0") "openwindow"
                    "workspace" "0" spotify_data eq_refl eq_refl)).
    reflexivity.
  - apply (proj1 (numeric_condition_total (workspace_above "2") "openwindow"
                    "workspace" "2" spotify_data eq_refl eq_refl)).
    reflexivity.
  - apply (proj1 (numeric_condition_total (workspace_above "abc") "openwindow"
                    "workspace" "abc" spotify_data eq_refl eq_refl)).
    reflexivity.
  - apply (proj2 (numeric_condition_total (workspace_below "2") "openwindow"
                    "workspace" "2" spotify_data eq_refl eq_refl)).
    reflexivity.
  - apply (proj2 (numeric_condition_total (workspace_below "0") "openwindow"
                    "workspace" "0" spotify_data eq_refl eq_refl)).
    reflexivity.
  - apply (proj2 (numeric_condition_total (workspace_below "abc") "openwindow"
                    "workspace" "abc" spotify_data eq_refl eq_refl)).
    reflexivity.
Defined.

(** ** The loop over the rules *)

(** *** Matching does not look at the output *)

Section Silent.
Context {A B : Type}.

Lemma silent_ret (a : A) : silent (ret a).
Proof. done. Qed.

Lemma silent_lift (r : res A) : silent (lift r).
Proof. done. Qed.

Lemma silent_bind (c : M A) (k : A → M B) :
  silent c → (∀ a, silent (k a)) → silent (bind c k).
Proof.
  intros Hc Hk w o. unfold bind. rewrite Hc.
  destruct (c w) as [[a|e] w1]; cbn [fst snd]; [apply Hk|done].
Qed.

Lemma silent_if (b : bool) (c1 c2 : M A) : silent c1 → silent c2 → silent (if b then c1 else c2).
Proof. by destruct b. Qed.

Lemma silent_output (c : M A) (w : world) : silent c → output (c w).2 = output w.
Proof.
  intros Hc. specialize (Hc w (output w)).
  replace (with_output (output w) w) with w in Hc by (by destruct w).
  by rewrite Hc.
Qed.

End Silent.

Lemma silent_time : silent time.
Proof. done. Qed.

Lemma silent_read_last (key : dict_key) :
  silent (fun w => (Ok (default 0%float (last_event_time w !! key)), w)).
Proof. done. Qed.

Lemma silent_record (key : dict_key) (t : float) :
  silent (fun w => (Ok tt, with_last_event_time (<[key := t]> (last_event_time w)) w)).
Proof. done. Qed.

Create HintDb silent discriminated.
#[local] Hint Resolve silent_ret silent_lift silent_time silent_read_last silent_record : silent.
#[local] Hint Extern 2 (silent (bind _ _)) => apply silent_bind; [|intros ?] : silent.
#[local] Hint Extern 2 (silent (if _ then _ else _)) => apply silent_if : silent.

Lemma silent_check_debounce (rule_id debounce_ms : json) :
  silent (check_debounce rule_id debounce_ms).
Proof. unfold check_debounce. auto 20 with silent. Qed.

#[local] Hint Resolve silent_check_debounce : silent.

Lemma silent_should_execute_rule (rule : json) (event_type : string)
    (event_data : list string) :
  silent (should_execute_rule rule event_type event_data).
Proof. unfold should_execute_rule. auto 30 with silent. Qed.

Section RulesLoop.
Variables (event_type : string) (event_data : list string).

Lemma match_all_output (rs : list json) (w : world) (o : list effect) :
  match_all rs event_type event_data (with_output o w)
  = ((match_all rs event_type event_data w).1,
     with_output o (match_all rs event_type event_data w).2).
Proof.
  revert w. induction rs as [|rule rest IH]; intros w; [done|].
  cbn [match_all]. rewrite silent_should_execute_rule.
  destruct (should_execute_rule rule event_type event_data w) as [fire w1].
  cbn [fst snd]. rewrite IH.
  by destruct (match_all rest event_type event_data w1) as [matched w2].
Qed.

(** *** A well-formed rule raises nothing *)

Lemma nearest_scale (n d : Z) :
  ∃ m e, PyFloat.nearest n d = (m, Z.max (e - 52) (-1074)) ∧ e ≤ Z.log2 n - Z.log2 d.
Proof.
  unfold PyFloat.nearest. cbv zeta.
  destruct (_ <? _); eexists _, _; (split; [reflexivity|lia]).
Qed.

(** A window below [2^1023] milliseconds is a finite number of seconds. *)
Lemma div_1000_finite (z : Z) :
  0 < z → z < 2 ^ 1023 → ∃ window, Py.div_1000 (JInt z) = Ok window.
Proof.
  intros Hpos Hbound. unfold Py.div_1000, Py.of_ratio, PyFloat.of_ratio.
  rewrite (proj2 (Z.eqb_neq z 0)) by lia.
  destruct (nearest_scale (Z.abs z) 1000) as (m & e & -> & He).
  assert (Z.log2 (Z.abs z) < 1023) as Hlog.
  { rewrite Z.abs_eq by lia. by apply Z.log2_lt_pow2. }
  change (Z.log2 1000) with 9 in He.
  unfold PyFloat.too_large.
  rewrite (proj2 (Z.ltb_ge 971 _)) by lia.
  rewrite (proj2 (Z.eqb_neq _ 971)) by lia.
  eauto.
Qed.

Lemma hash_scalar (x : json) : scalar x = true → ∃ key, Py.hash x = Ok key.
Proof.
  destruct x; try done; cbn [Py.hash]; eauto.
  destruct (Py.integral _); eauto.
Qed.

(** The comparison of [check_condition], once the field is found. *)
Lemma comparison_ok (operator : json) (actual value : string) :
  ∃ b,
    (if Py.eq_str operator "equals" then Ok (Py.eq_str (JStr value) actual)
     else if Py.eq_str operator "contains" then
       e <-- as_str (JStr value) ;; Ok (PyStr.contains e actual)
     else if Py.eq_str operator "startswith" then
       e <-- as_str (JStr value) ;; Ok (PyStr.startswith actual e)
     else if Py.eq_str operator "endswith" then
       e <-- as_str (JStr value) ;; Ok (PyStr.endswith actual e)
     else if Py.eq_str operator "greater" then
       compare_floats float_gt actual (JStr value)
     else if Py.eq_str operator "less" then
       compare_floats float_lt actual (JStr value)
     else Ok false) = Ok b.
Proof.
  rewrite !compare_floats_strings. cbn [as_str res_bind].
  repeat (destruct (Py.eq_str operator _); [eauto|]). eauto.
Qed.

Lemma check_condition_ok (c : json) :
  condition_ok c = true → ∃ b, check_condition c event_data event_type = Ok b.
Proof.
  destruct c as [| | | | | |m]; try done. cbn [condition_ok].
  intros [Hscalar Hvalue]%andb_true_iff.
  destruct (m !! "value") as [[| | | |value| |]|] eqn:Hv; try done.
  unfold check_condition, find_property, Py.get. cbn [res_bind]. rewrite Hv.
  cbn [default from_option id].
  destruct (hash_scalar _ Hscalar) as [key ->]. cbn [res_bind].
  generalize (from_option id ∅ (property_map !! event_type)). intros table.
  generalize (from_option id JNull (m !! "operator")). intros operator.
  destruct (from_option id JNull (m !! "property")) as [| | | |property| |];
    try done; eauto.
  destruct (table !! property) as [index|]; cbn [res_bind]; [|eauto].
  destruct (event_data !! index) as [actual|]; [|eauto].
  apply comparison_ok.
Qed.

Lemma check_conditions_ok (cs : list json) :
  forallb condition_ok cs = true → ∃ b, check_conditions cs event_data event_type = Ok b.
Proof.
  induction cs as [|c cs IH]; [by eauto|].
  cbn [forallb check_conditions]. intros [Hc Hcs]%andb_true_iff.
  destruct (check_condition_ok c Hc) as [[|] ->]; cbn; eauto.
Qed.

Lemma check_debounce_ok (rule_id : json) (z : Z) (w : world) :
  scalar rule_id = true → 0 ≤ z → z < 2 ^ 1023 →
  ∃ b w', check_debounce rule_id (JInt z) w = (Ok b, w').
Proof.
  intros Hscalar Hz Hbound.
  destruct (decide (z = 0)) as [->|Hnz]; [by eauto|].
  destruct (hash_scalar _ Hscalar) as [key Hkey].
  destruct (div_1000_finite z) as [window Hwindow]; [lia..|].
  rewrite (check_debounce_window _ w key z window) by (done || lia).
  destruct (PrimFloat.ltb _ _); eauto.
Qed.

Lemma should_execute_rule_ok (rule : json) (w : world) :
  rule_ok rule = true →
  ∃ b w', should_execute_rule rule event_type event_data w = (Ok b, w').
Proof.
  destruct rule as [| | | | | |m]; try done. cbn [rule_ok].
  intros [[[Htrigger Hid]%andb_true_iff Hconds]%andb_true_iff _]%andb_true_iff.
  unfold should_execute_rule, bind, lift, ret, Py.get.
  destruct (negb _); [eauto|].
  destruct (default (JObj ∅) (m !! "trigger")) as [| | | | | |t]; try done.
  destruct (negb _); [eauto|].
  cbn [trigger_ok] in Htrigger.
  destruct (default (JInt 0) (t !! "debounce")) as [| |z| | | |]; try done.
  apply andb_true_iff in Htrigger as [Hz%Z.leb_le Hbound%Z.ltb_lt].
  destruct (check_debounce_ok _ z w Hid Hz Hbound) as (pass & w1 & ->).
  destruct (negb pass); [eauto|].
  destruct (default (JArr []) (m !! "conditions")) as [| | | | |cs|]; try done.
  cbn [Py.iter array_of] in *.
  destruct (check_conditions_ok cs Hconds) as [b ->]. eauto.
Qed.

(** *** Dispatching *)

Lemma spawned_app (o1 o2 : list effect) : spawned (o1 ++ o2) = spawned o1 ++ spawned o2.
Proof. apply omap_app. Qed.

Lemma run_command (command : json) (w : world) :
  ∃ o,
    (print (Executing command) ;; run_guarded command) w
    = (Ok tt, with_output (output w ++ o) w) ∧
    spawned o = [command].
Proof.
  exists ([Printed (Executing command); Spawned command] ++
          if spawn_raises w command then [Printed (ErrorExecuting command)] else []).
  unfold bind, print, run_guarded. cbn [output with_output spawn_raises].
  destruct (spawn_raises w command); split; try done;
    unfold with_output; cbn; by rewrite <-?app_assoc.
Qed.

(** The loop of [execute_actions] spawns the commands of the actions, in
    order, whether or not the executor raises on one of them. *)
Lemma actions_loop (actions : list json) (w : world) :
  forallb action_ok actions = true →
  ∃ o,
    for_each actions (fun action =>
      command <~ Py.get action "command" JNull ;;
      if Py.truthy command then print (Executing command) ;; run_guarded command
      else ret tt) w
    = (Ok tt, with_output (output w ++ o) w) ∧
    spawned o
    = filter (fun c => Py.truthy c = true)
        ((fun a => match a with
                   | JObj am => default JNull (am !! "command")
                   | _ => JNull
                   end) <$> actions).
Proof.
  revert w. induction actions as [|action actions IH]; intros w.
  - intros _. exists []. split; [|done].
    cbn [for_each ret]. rewrite app_nil_r. by destruct w.
  - cbn [forallb]. intros [Haction Hrest]%andb_true_iff.
    destruct action as [| | | | | |am]; try done.
    cbn [for_each fmap list_fmap]. rewrite filter_cons.
    unfold bind at 1. unfold bind at 1. unfold lift at 1. cbn [Py.get].
    set (command := default JNull (am !! "command")).
    destruct (Py.truthy command) eqn:Htruthy.
    + rewrite decide_True by done.
      destruct (run_command command w) as (o1 & -> & Ho1).
      destruct (IH (with_output (output w ++ o1) w) Hrest) as (o & -> & Ho).
      exists (o1 ++ o). split.
      * cbn [output with_output]. by rewrite app_assoc.
      * by rewrite spawned_app, Ho1, Ho.
    + rewrite decide_False by done.
      unfold ret at 1. destruct (IH w Hrest) as (o & -> & Ho). eauto.
Qed.

Lemma execute_actions_ok (rule : json) (w : world) :
  rule_ok rule = true →
  ∃ o,
    execute_actions rule w = (Ok tt, with_output (output w ++ o) w) ∧
    spawned o = commands_of rule.
Proof.
  destruct rule as [| | | | | |m]; try done. cbn [rule_ok commands_of].
  intros [_ Hactions]%andb_true_iff.
  unfold execute_actions. unfold bind at 1. unfold lift at 1. cbn [Py.get].
  destruct (default (JArr []) (m !! "actions")) as [| | | | |actions|]; try done.
  unfold bind at 1. unfold lift at 1. cbn [Py.iter].
  by apply actions_loop.
Qed.

(** The loop of [process_event] over well-formed rules: every rule is
    matched, in order, in the state its predecessors left, and the actions
    of each rule that matches are dispatched before the next rule is
    looked at. *)
Lemma rules_loop (rs : list json) (w : world) :
  forallb rule_ok rs = true →
  ∃ o,
    for_each rs (fun rule =>
      fire <- should_execute_rule rule event_type event_data ;;
      if fire : bool then
        name <~ Py.get rule "name" (JStr "unnamed") ;;
        print (RuleMatched name) ;;
        execute_actions rule
      else ret tt) w
    = (Ok tt, with_output (output w ++ o) (match_all rs event_type event_data w).2) ∧
    spawned o = flat_map commands_of (match_all rs event_type event_data w).1.
Proof.
  revert w. induction rs as [|rule rest IH]; intros w.
  - intros _. exists []. split; [|done].
    cbn [for_each ret match_all snd]. rewrite app_nil_r. by destruct w.
  - cbn [forallb]. intros [Hrule Hrest]%andb_true_iff.
    cbn [for_each match_all]. unfold bind at 1. unfold bind at 1.
    pose proof (silent_output (should_execute_rule rule event_type event_data) w
                  (silent_should_execute_rule _ _ _)) as Hout.
    destruct (should_execute_rule_ok rule w Hrule) as (fire & w1 & Hfire).
    rewrite Hfire in Hout |- *. cbn [snd] in Hout.
    destruct fire.
    + destruct rule as [| | | | | |m]; try done.
      unfold bind at 1. unfold lift at 1. cbn [Py.get].
      unfold bind at 1. unfold print at 1.
      set (o1 := output w1 ++ _).
      destruct (execute_actions_ok (JObj m) (with_output o1 w1) Hrule)
        as (oa & -> & Hoa).
      destruct (IH (with_output (output (with_output o1 w1) ++ oa) (with_output o1 w1))
                  Hrest) as (o & -> & Ho).
      rewrite !match_all_output in Ho |- *. cbn [fst snd] in Ho |- *.
      destruct (match_all rest event_type event_data w1) as [matched w3].
      cbn [fst snd flat_map] in Ho |- *.
      exists ([Printed (RuleMatched (default (JStr "unnamed") (m !! "name")))] ++ oa ++ o).
      split.
      * subst o1. cbn [output with_output]. rewrite Hout.
        by rewrite <-!app_assoc.
      * by rewrite !spawned_app, Hoa, Ho.
    + unfold ret at 1.
      destruct (IH w1 Hrest) as (o & -> & Ho).
      destruct (match_all rest event_type event_data w1) as [matched w3].
      cbn [fst snd] in Ho |- *. rewrite Hout. eauto.
Qed.

(** *** Rules without a debounce window

    Such a rule leaves the state as it is, so the rules that match are those
    that match the event on their own: all of them, in document order. *)

Lemma should_execute_rule_undebounced (rule : json) (w : world) :
  undebounced rule = true →
  (should_execute_rule rule event_type event_data w).2 = w.
Proof.
  destruct rule as [| | | | | |m]; try done. cbn [undebounced].
  unfold should_execute_rule, bind, lift, ret, Py.get.
  destruct (negb _); [done|].
  destruct (default (JObj ∅) (m !! "trigger")) as [| | | | | |t]; try done.
  destruct (negb _); [done|].
  destruct (default (JInt 0) (t !! "debounce")) as [| |z| | | |]; try done.
  intros Hz%Z.leb_le. unfold check_debounce, bind, lift, ret. cbn [Py.gt_zero].
  rewrite (proj2 (Z.ltb_ge 0 z)) by done. cbn [negb].
  by destruct (Py.iter _).
Qed.

Lemma match_all_undebounced (rs : list json) (w : world) :
  forallb undebounced rs = true →
  match_all rs event_type event_data w
  = (filter (fun rule => fires rule event_type event_data w = true) rs, w).
Proof.
  induction rs as [|rule rest IH]; [done|].
  cbn [forallb match_all]. intros [Hrule Hrest]%andb_true_iff.
  pose proof (should_execute_rule_undebounced rule w Hrule) as Hsame.
  assert (fires rule event_type event_data w
          = match (should_execute_rule rule event_type event_data w).1 with
            | Ok true => true
            | _ => false
            end) as Hfires by done.
  rewrite filter_cons.
  destruct (should_execute_rule rule event_type event_data w) as [fire w1].
  cbn [fst snd] in Hsame, Hfires. subst w1. rewrite (IH Hrest).
  destruct fire as [[|]|];
    [by rewrite decide_True|by rewrite decide_False by (by rewrite Hfires)..].
Qed.

End RulesLoop.

Lemma parse_event_data_nonempty (line event_type : string) (event_data : list string) :
  parse_event line = Ok (Some event_type, Some event_data) → event_data ≠ [].
Proof.
  unfold parse_event. destruct (negb _); [done|].
  destruct (PyStr.split ">>" _ line) as [|a [|b [|]]]; try done.
  intros [= _ <-]. by destruct (PyStrFacts.split_comma b).
Qed.




(** * Further properties of the daemon *)

(** ** Suffixes *)

Module PyTextFacts.
Import PyStr.

Lemma app_assoc (a b c : string) : (a +:+ b) +:+ c = a +:+ b +:+ c.
Proof.
  induction a as [|x a IH]; [done|].
  by rewrite !PyStrFacts.app_cons, IH.
Qed.

Lemma app_nil_r (a : string) : a +:+ "" = a.
Proof. induction a as [|x a IH]; [done|]. by rewrite PyStrFacts.app_cons, IH. Qed.

Lemma rev_app_eq (s acc : string) : String.rev_app s acc = String.rev s +:+ acc.
Proof.
  unfold String.rev. revert acc. induction s as [|x s IH]; intros acc; [done|].
  cbn [String.rev_app]. rewrite (IH (String x acc)), (IH (String x "")).
  by rewrite app_assoc.
Qed.

Lemma rev_cons (x : ascii) (s : string) :
  String.rev (String x s) = String.rev s +:+ String x "".
Proof. unfold String.rev at 1. cbn [String.rev_app]. apply rev_app_eq. Qed.

Lemma rev_app (a b : string) : String.rev (a +:+ b) = String.rev b +:+ String.rev a.
Proof.
  induction a as [|x a IH].
  - change ("" +:+ b) with b. by rewrite app_nil_r.
  - by rewrite PyStrFacts.app_cons, !rev_cons, IH, app_assoc.
Qed.

Lemma rev_involutive (s : string) : String.rev (String.rev s) = s.
Proof.
  induction s as [|x s IH]; [done|].
  by rewrite rev_cons, rev_app, IH.
Qed.

Lemma endswith_occurs (s p : string) : endswith s p = true ↔ ∃ r, s = r +:+ p.
Proof.
  unfold endswith. rewrite PyStrFacts.startswith_occurs. split.
  - intros [r Hr]. exists (String.rev r).
    by rewrite <-(rev_involutive s), Hr, rev_app, rev_involutive.
  - intros [r ->]. exists (String.rev r). apply rev_app.
Qed.

End PyTextFacts.

(** ** Conditions, operator by operator *)

Lemma check_condition_resolved (c : gmap string json) (event_type property actual : string)
    (event_data : list string) :
  c !! "property" = Some (JStr property) →
  field_of event_type property event_data = Some actual →
  check_condition (JObj c) event_data event_type
  = comparison (default JNull (c !! "operator")) (default JNull (c !! "value")) actual.
Proof.
  intros Hproperty Hfield.
  unfold check_condition, find_property, res_bind, Py.get, field_of in *.
  rewrite Hproperty. cbn [default from_option id Py.hash].
  destruct (default ∅ (property_map !! event_type) !! property) as [index|];
    [|done].
  cbn [mbind option_bind] in Hfield. by rewrite Hfield.
Qed.

Lemma check_condition_unresolved (c : gmap string json) (event_type : string)
    (event_data : list string) :
  scalar (default JNull (c !! "property")) = true →
  (∀ property, c !! "property" = Some (JStr property) →
     field_of event_type property event_data = None) →
  check_condition (JObj c) event_data event_type = Ok false.
Proof.
  intros Hscalar Hfield.
  unfold check_condition, find_property, Py.get. cbn [res_bind].
  destruct (hash_scalar _ Hscalar) as [key ->]. cbn [res_bind].
  destruct (c !! "property") as [[| | | |property| |]|] eqn:Hproperty; try done.
  specialize (Hfield property eq_refl). unfold field_of in Hfield.
  cbn [default from_option id].
  destruct (default ∅ (property_map !! event_type) !! property) as [index|];
    cbn [res_bind]; [|done].
  cbn [mbind option_bind] in Hfield. by rewrite Hfield.
Qed.

Lemma eq_str_true (x : json) (s : string) : Py.eq_str x s = true ↔ x = JStr s.
Proof.
  destruct x; cbn [Py.eq_str]; try (split; [done|by intros [=]]).
  rewrite bool_decide_eq_true. split; [by intros ->|by intros [= ->]].
Qed.

Lemma eq_str_other (s t : string) : s ≠ t → Py.eq_str (JStr s) t = false.
Proof. intros Hne. cbn [Py.eq_str]. by apply bool_decide_eq_false_2. Qed.

(** X1. A condition that cannot be evaluated is false, not an error.  A
    condition (with a property that is a string, or null, a number or
    missing) is false whatever its value, and raises nothing, when its
    property does not resolve to a field of the event (the event type is not
    in the table, or the property is not one of the type's, or the event has
    too few fields, or the property is not a string), and also when its
    operator is none of the six or is missing. *)
Theorem inert_condition_is_false (c : gmap string json) (event_type : string)
    (event_data : list string) :
  scalar (default JNull (c !! "property")) = true →
  (∀ property, c !! "property" = Some (JStr property) →
     field_of event_type property event_data = None) ∨
  (∀ operator, c !! "operator" = Some (JStr operator) → operator ∉ operators) →
  check_condition (JObj c) event_data event_type = Ok false.
Proof.
  intros Hscalar [Hfield|Hunknown]; [by apply check_condition_unresolved|].
  destruct (c !! "property") as [[| | | |property| |]|] eqn:Hproperty;
    try (apply check_condition_unresolved; by rewrite ?Hproperty).
  destruct (field_of event_type property event_data) as [actual|] eqn:Hfield.
  - rewrite (check_condition_resolved c event_type property actual) by done.
    unfold comparison.
    assert (∀ op, op ∈ operators → Py.eq_str (default JNull (c !! "operator")) op = false)
      as Hnot.
    { intros op Hop. destruct (Py.eq_str _ op) eqn:Heq; [|done].
      apply eq_str_true in Heq.
      destruct (c !! "operator") as [operator|] eqn:Hoperator; [|done].
      cbn in Heq. subst operator. by destruct (Hunknown op eq_refl). }
    rewrite !Hnot; [done|by apply (bool_decide_unpack _)..].
  - apply check_condition_unresolved; [by rewrite Hproperty|].
    intros p. rewrite Hproperty. by intros [= <-].
Qed.

(** An unknown event type; a property of another type; an event cut
    short; no property at all; a misspelt operator. *)
Lemma inert_condition_is_false_witness :
  check_condition (JObj (on_field "class" "equals" (JStr "spotify")))
    spotify_data "urgent" = Ok false ∧
  check_condition (JObj (on_field "layout" "equals" JNull))
    spotify_data "openwindow" = Ok false ∧
  check_condition (JObj (on_field "class" "contains" (JInt 5)))
    ["0xdead"; "1"] "openwindow" = Ok false ∧
  check_condition (JObj ∅) spotify_data "openwindow" = Ok false ∧
  check_condition (JObj (on_field "class" "equal" (JStr "spotify")))
    spotify_data "openwindow" = Ok false.
Proof.
  split_and!; apply inert_condition_is_false; try reflexivity.
  - left. intros property Heq. by inversion Heq.
  - left. intros property Heq. by inversion Heq.
  - left. intros property Heq. by inversion Heq.
  - left. intros property Heq. by inversion Heq.
  - right. intros operator Heq. inversion Heq.
    by apply (bool_decide_eq_false_1 ("equal" ∈ operators)).
Defined.

(** X2. [equals] is exact equality of strings and never raises: the
    condition is true when the value is a string, the same as the field
    character for character, and false otherwise; a value that is not a
    string (the number [1] against the field ["1"], say) or that is missing
    is never equal to a field. *)
Theorem equals_is_exact (c : gmap string json) (event_type property actual : string)
    (event_data : list string) :
  c !! "property" = Some (JStr property) →
  c !! "operator" = Some (JStr "equals") →
  field_of event_type property event_data = Some actual →
  ∃ b, check_condition (JObj c) event_data event_type = Ok b ∧
       (b = true ↔ c !! "value" = Some (JStr actual)).
Proof.
  intros Hproperty Hoperator Hfield.
  rewrite (check_condition_resolved c event_type property actual) by done.
  unfold comparison. rewrite Hoperator. cbn [default from_option id Py.eq_str].
  rewrite bool_decide_eq_true_2 by done.
  eexists. split; [done|]. rewrite eq_str_true.
  destruct (c !! "value") as [value|]; cbn; [|done].
  split; [by intros ->|by intros [= ->]].
Qed.

Lemma equals_is_exact_witness :
  (∃ b, check_condition (JObj (on_field "workspace" "equals" (JInt 1)))
          spotify_data "openwindow" = Ok b ∧
        (b = true ↔ on_field "workspace" "equals" (JInt 1) !! "value" = Some (JStr "1"))) ∧
  check_condition (JObj (on_field "workspace" "equals" (JInt 1)))
    spotify_data "openwindow" = Ok false ∧
  check_condition (JObj (on_field "workspace" "equals" (JStr "1")))
    spotify_data "openwindow" = Ok true.
Proof.
  split; [|done].
  by apply (equals_is_exact _ "openwindow" "workspace" "1" spotify_data).
Defined.

(** X3. The three text operators with a string value: [contains] holds
    when the value occurs somewhere in the field, [startswith] when the
    field begins with it, [endswith] when the field ends with it (the empty
    value always does); nothing is raised. *)
Theorem text_operators (c : gmap string json) (event_type property actual value : string)
    (event_data : list string) :
  c !! "property" = Some (JStr property) →
  c !! "value" = Some (JStr value) →
  field_of event_type property event_data = Some actual →
  (c !! "operator" = Some (JStr "contains") →
   ∃ b, check_condition (JObj c) event_data event_type = Ok b ∧
        (b = true ↔ ∃ before after, actual = before +:+ value +:+ after)) ∧
  (c !! "operator" = Some (JStr "startswith") →
   ∃ b, check_condition (JObj c) event_data event_type = Ok b ∧
        (b = true ↔ ∃ after, actual = value +:+ after)) ∧
  (c !! "operator" = Some (JStr "endswith") →
   ∃ b, check_condition (JObj c) event_data event_type = Ok b ∧
        (b = true ↔ ∃ before, actual = before +:+ value)).
Proof.
  intros Hproperty Hvalue Hfield.
  rewrite (check_condition_resolved c event_type property actual) by done.
  unfold comparison. rewrite Hvalue.
  split_and!; intros ->; cbn [default from_option id Py.eq_str as_str res_bind];
    rewrite !bool_decide_eq_false_2 by done;
    rewrite bool_decide_eq_true_2 by done;
    (eexists; split; [done|]).
  - apply PyStrFacts.contains_occurs.
  - apply PyStrFacts.startswith_occurs.
  - apply PyTextFacts.endswith_occurs.
Qed.

(** The title ["Spotify - Song"] contains ["fy - S"], begins with
    ["Spot"] and ends with ["Song"]. *)
Lemma text_operators_witness :
  (∃ b, check_condition (JObj (on_field "title" "contains" (JStr "fy - S")))
          spotify_data "openwindow" = Ok b ∧
        (b = true ↔ ∃ before after, "Spotify - Song" = before +:+ "fy - S" +:+ after)) ∧
  (∃ b, check_condition (JObj (on_field "title" "startswith" (JStr "Spot")))
          spotify_data "openwindow" = Ok b ∧
        (b = true ↔ ∃ after, "Spotify - Song" = "Spot" +:+ after)) ∧
  (∃ b, check_condition (JObj (on_field "title" "endswith" (JStr "Song")))
          spotify_data "openwindow" = Ok b ∧
        (b = true ↔ ∃ before, "Spotify - Song" = before +:+ "Song")).
Proof.
  split_and!.
  - by apply (text_operators (on_field "title" "contains" (JStr "fy - S"))
                "openwindow" "title" "Spotify - Song" "fy - S" spotify_data).
  - by apply (text_operators (on_field "title" "startswith" (JStr "Spot"))
                "openwindow" "title" "Spotify - Song" "Spot" spotify_data).
  - by apply (text_operators (on_field "title" "endswith" (JStr "Song"))
                "openwindow" "title" "Spotify - Song" "Song" spotify_data).
Defined.

(** X4. The three text operators raise [TypeError] when the value is not
    a string (a number, a boolean, null, a list, an object, or no value at
    all) and the property resolves to a field: the exception leaves
    [check_condition]. *)
Theorem text_operator_needs_string (c : gmap string json)
    (event_type property actual operator : string) (event_data : list string) :
  c !! "property" = Some (JStr property) →
  c !! "operator" = Some (JStr operator) →
  operator ∈ ["contains"; "startswith"; "endswith"] →
  (∀ value, c !! "value" ≠ Some (JStr value)) →
  field_of event_type property event_data = Some actual →
  check_condition (JObj c) event_data event_type = Raise TypeError.
Proof.
  intros Hproperty Hoperator Hin Hvalue Hfield.
  rewrite (check_condition_resolved c event_type property actual) by done.
  unfold comparison. rewrite Hoperator. cbn [default from_option id Py.eq_str].
  assert (as_str (default JNull (c !! "value")) = Raise TypeError) as ->.
  { destruct (c !! "value") as [[| | | |value| |]|]; try done.
    by destruct (Hvalue value). }
  repeat (apply elem_of_cons in Hin as [->|Hin]; [done|]).
  by apply elem_of_nil in Hin.
Qed.

Lemma text_operator_needs_string_witness :
  check_condition (JObj (on_field "workspace" "contains" (JInt 1)))
    spotify_data "openwindow" = Raise TypeError.
Proof.
  apply (text_operator_needs_string _ "openwindow" "workspace" "1" "contains");
    try done.
  by apply (bool_decide_unpack _).
Defined.

(** X5. [greater] and [less] convert the field first.  When the field is
    not the text of a number the condition is false whatever the value is,
    even null, a list or missing; when the field is a number and the value
    is null, a list, an object or missing, [TypeError] is raised (it is not
    the [ValueError] the method catches). *)
Theorem numeric_operator_converts_field_first (c : gmap string json)
    (event_type property actual operator : string) (event_data : list string) :
  c !! "property" = Some (JStr property) →
  c !! "operator" = Some (JStr operator) →
  operator ∈ ["greater"; "less"] →
  field_of event_type property event_data = Some actual →
  (PyFloat.of_string actual = None →
   check_condition (JObj c) event_data event_type = Ok false) ∧
  (is_Some (PyFloat.of_string actual) →
   scalar (default (JArr []) (c !! "value")) = false ∨ default JNull (c !! "value") = JNull →
   check_condition (JObj c) event_data event_type = Raise TypeError).
Proof.
  intros Hproperty Hoperator Hin Hfield.
  rewrite (check_condition_resolved c event_type property actual) by done.
  unfold comparison, compare_floats. rewrite Hoperator.
  cbn [default from_option id Py.eq_str Py.to_float].
  assert (operator = "greater" ∨ operator = "less") as [-> | ->].
  { repeat (apply elem_of_cons in Hin as [->|Hin]; [by eauto|]).
    by apply elem_of_nil in Hin. }
  all: rewrite !bool_decide_eq_false_2 by done.
  all: rewrite bool_decide_eq_true_2 by done.
  all: split; [by intros ->|intros [x ->] Hvalue].
  all: destruct (c !! "value") as [[| | | |value| |]|]; cbn in Hvalue |- *;
    by destruct Hvalue.
Qed.

(** The class ["spotify"] is no number: [greater] is false even without a
    value.  The workspace ["1"] is one: without a value, [TypeError]. *)
Lemma numeric_operator_converts_field_first_witness :
  check_condition (JObj (on_field "class" "greater" JNull))
    spotify_data "openwindow" = Ok false ∧
  check_condition (JObj (on_field "workspace" "greater" JNull))
    spotify_data "openwindow" = Raise TypeError.
Proof.
  split.
  - refine (proj1 (numeric_operator_converts_field_first _ "openwindow" "class"
                     "spotify" "greater" spotify_data _ _ _ _) _);
      try done.
    by apply (bool_decide_unpack _).
  - refine (proj2 (numeric_operator_converts_field_first _ "openwindow" "workspace"
                     "1" "greater" spotify_data _ _ _ _) _ _);
      try done; first [by apply (bool_decide_unpack _)|by eexists|by right].
Defined.

(** ** The conjunction of the conditions *)

(** X6. The conditions of a rule are a conjunction: the loop answers
    [True] exactly when every condition, checked on its own, answers [True];
    with no condition at all it answers [True]. *)
Theorem conditions_are_a_conjunction (conditions : list json) (event_data : list string)
    (event_type : string) :
  check_conditions conditions event_data event_type = Ok true ↔
  Forall (fun c => check_condition c event_data event_type = Ok true) conditions.
Proof.
  induction conditions as [|c cs IH]; cbn [check_conditions res_bind].
  - split; [constructor|done].
  - rewrite Forall_cons, <-IH.
    destruct (check_condition c event_data event_type) as [[|]|e];
      cbn [res_bind]; split; try done; by intros [? ?].
Qed.

(** X7. The loop over the conditions stops at the first one that does not
    answer [True] and answers what that one answers, [False] or an
    exception; the conditions after it are not looked at, so a malformed
    condition behind a false one raises nothing. *)
Theorem first_failing_condition_decides (before after : list json) (c : json)
    (event_data : list string) (event_type : string) (r : res bool) :
  Forall (fun c' => check_condition c' event_data event_type = Ok true) before →
  check_condition c event_data event_type = r →
  r ≠ Ok true →
  check_conditions (before ++ c :: after) event_data event_type = r.
Proof.
  intros Hbefore Hc Hr. induction Hbefore as [|c' cs Hc' _ IH].
  - cbn [app check_conditions]. rewrite Hc.
    by destruct r as [[|]|e].
  - cbn [app check_conditions]. by rewrite Hc'.
Qed.

(** The class is Spotify's but the workspace is not above 5; the third
    condition is no object and would raise [AttributeError]. *)
Lemma first_failing_condition_decides_witness :
  check_conditions
    ([JObj (on_field "class" "equals" (JStr "spotify"))]
     ++ JObj (workspace_above "5") :: [JInt 7])
    spotify_data "openwindow" = Ok false ∧
  check_condition (JInt 7) spotify_data "openwindow" = Raise AttributeError.
Proof.
  split; [|done].
  apply first_failing_condition_decides; [|done..].
  by constructor.
Defined.

(** ** The matcher *)

(** X8. A rule for another event type is out at once: when the trigger
    type is not the event's (or is missing, or is not a string),
    [should_execute_rule] answers [False] and leaves the state as it was; it
    reads no clock, writes no last-fire time and looks at no condition,
    however its debounce, id and conditions are written. *)
Theorem other_event_type_is_skipped (m t : gmap string json) (event_type : string)
    (event_data : list string) (w : world) :
  default (JObj ∅) (m !! "trigger") = JObj t →
  t !! "type" ≠ Some (JStr event_type) →
  should_execute_rule (JObj m) event_type event_data w = (Ok false, w).
Proof.
  intros Htrigger Htype.
  unfold should_execute_rule, bind, lift, ret, Py.get. rewrite Htrigger.
  destruct (negb (Py.truthy _)); [done|].
  destruct (Py.eq_str (default JNull (t !! "type")) event_type) eqn:Heq; [|done].
  apply eq_str_true in Heq. destruct (t !! "type"); [|done].
  cbn in Heq. by subst.
Qed.

(** [wf_001] listens to [openwindow]; on a [closewindow] event nothing
    happens, even with conditions that are no list. *)
Lemma other_event_type_is_skipped_witness :
  should_execute_rule (JObj (<["conditions" := JInt 7]> wf_001_fields))
    "closewindow" spotify_data loaded = (Ok false, loaded).
Proof. by apply (other_event_type_is_skipped _ wf_001_trigger). Defined.

Lemma check_debounce_other_key (rule_id debounce_ms : json) (w : world) (key : dict_key) :
  Py.hash rule_id ≠ Ok key →
  last_event_time (check_debounce rule_id debounce_ms w).2 !! key
  = last_event_time w !! key.
Proof.
  intros Hkey. unfold check_debounce, bind, lift, ret, time.
  destruct (Py.gt_zero debounce_ms) as [[|]|]; try done.
  destruct (Py.hash rule_id) as [key'|]; [|done].
  destruct (Py.div_1000 debounce_ms); [|done].
  destruct (PrimFloat.ltb _ _); [done|].
  cbn. apply lookup_insert_ne. congruence.
Qed.

(** X9. Matching a rule touches no last-fire time but the rule's own:
    under every key that is not the rule's id (as the dictionary hashes it)
    the dictionary holds after [should_execute_rule] what it held before,
    whether the rule fired, was suppressed or raised. *)
Theorem rule_touches_only_its_own_entry (m : gmap string json) (event_type : string)
    (event_data : list string) (w : world) (key : dict_key) :
  Py.hash (default (JStr "") (m !! "id")) ≠ Ok key →
  last_event_time (should_execute_rule (JObj m) event_type event_data w).2 !! key
  = last_event_time w !! key.
Proof.
  intros Hkey.
  pose proof (check_debounce_other_key (default (JStr "") (m !! "id"))) as Hgate.
  unfold should_execute_rule, bind, lift, ret, Py.get.
  destruct (negb (Py.truthy _)); [done|].
  destruct (default (JObj ∅) (m !! "trigger")) as [| | | | | |t]; try done.
  destruct (negb (Py.eq_str _ _)); [done|].
  specialize (Hgate (default (JInt 0) (t !! "debounce")) w key Hkey).
  destruct (check_debounce _ _ w) as [[pass|e] w1]; cbn [snd] in Hgate; [|done].
  destruct (negb pass); [done|].
  by destruct (Py.iter _).
Qed.

(** [wf_001] fires on the Spotify window; what is recorded for [wf_002]
    stays as it was. *)
Lemma rule_touches_only_its_own_entry_witness :
  last_event_time
    (should_execute_rule wf_001 "openwindow" spotify_data loaded).2 !! KStr "wf_002"
  = last_event_time loaded !! KStr "wf_002".
Proof. by apply rule_touches_only_its_own_entry. Defined.

(** X10. When a rule fires.  For a rule object whose trigger is an object,
    whose debounce is an integer and whose conditions are a list,
    [should_execute_rule] answers [True] exactly when the rule is enabled,
    its trigger type is the event's, its debounce window is open (there is
    none, or it has passed since the recorded last fire), and the loop over
    its conditions answers [True]. *)
Theorem rule_fires_iff (m t : gmap string json) (d : Z) (conditions : list json)
    (event_type : string) (event_data : list string) (w : world) :
  default (JObj ∅) (m !! "trigger") = JObj t →
  default (JInt 0) (t !! "debounce") = JInt d →
  default (JArr []) (m !! "conditions") = JArr conditions →
  (should_execute_rule (JObj m) event_type event_data w).1 = Ok true ↔
  Py.truthy (default (JBool true) (m !! "enabled")) = true ∧
  t !! "type" = Some (JStr event_type) ∧
  window_open (default (JStr "") (m !! "id")) d w ∧
  check_conditions conditions event_data event_type = Ok true.
Proof.
  intros Htrigger Hdebounce Hconditions.
  unfold should_execute_rule, bind, lift, ret, Py.get.
  rewrite Htrigger, Hdebounce, Hconditions. cbn [Py.iter].
  destruct (Py.truthy _); cbn [negb fst]; [|split; [done|by intros [? _]]].
  destruct (Py.eq_str (default JNull (t !! "type")) event_type) eqn:Htype;
    cbn [negb fst].
  2:{ split; [done|]. intros (_ & Heq & _). rewrite Heq in Htype. cbn in Htype.
      by rewrite bool_decide_eq_true_2 in Htype. }
  apply eq_str_true in Htype.
  assert (t !! "type" = Some (JStr event_type)) as Htype'.
  { destruct (t !! "type"); [|done]. cbn in Htype. by subst. }
  unfold window_open. destruct (decide (0 < d)) as [Hd|Hd].
  - destruct (Py.hash (default (JStr "") (m !! "id"))) as [key|e] eqn:Hkey.
    2:{ unfold check_debounce, bind, lift. cbn [Py.gt_zero].
        rewrite (proj2 (Z.ltb_lt 0 d)), Hkey by done. cbn.
        split; [done|]. intros (_ & _ & [?|(? & ? & ? & _)] & _); [lia|done]. }
    destruct (Py.div_1000 (JInt d)) as [window|e] eqn:Hwindow.
    2:{ unfold check_debounce, bind, lift. cbn [Py.gt_zero].
        rewrite (proj2 (Z.ltb_lt 0 d)), Hkey, Hwindow by done. cbn.
        split; [done|]. intros (_ & _ & [?|(? & ? & ? & ? & _)] & _); [lia|done]. }
    rewrite (check_debounce_window _ w key d window) by done.
    destruct (PrimFloat.ltb _ _) eqn:Hlt; cbn [negb fst snd].
    + split; [done|].
      intros (_ & _ & [?|(key' & window' & [= <-] & [= <-] & Hopen)] & _); [lia|].
      congruence.
    + split; [intros Hcs; split_and!; eauto 6|by intros (_ & _ & _ & ?)].
  - unfold check_debounce, bind, lift, ret. cbn [Py.gt_zero].
    rewrite (proj2 (Z.ltb_ge 0 d)) by lia. cbn [negb fst].
    split; [intros Hcs; split_and!; [done..|left; lia|done]|by intros (_ & _ & _ & ?)].
Qed.

(** [wf_001] on the Spotify window, for a daemon that has just loaded it. *)
Lemma rule_fires_iff_witness :
  (should_execute_rule wf_001 "openwindow" spotify_data loaded).1 = Ok true ↔
  Py.truthy (default (JBool true) (wf_001_fields !! "enabled")) = true ∧
  wf_001_trigger !! "type" = Some (JStr "openwindow") ∧
  window_open (default (JStr "") (wf_001_fields !! "id")) 100 loaded ∧
  check_conditions wf_001_conditions spotify_data "openwindow" = Ok true.
Proof. by apply rule_fires_iff. Defined.

(** ** Actions *)

Lemma failures_app (o1 o2 : list effect) : failures (o1 ++ o2) = failures o1 ++ failures o2.
Proof. apply omap_app. Qed.


(** One action of [execute_actions], with what it adds to the output. *)
Lemma one_action (am : gmap string json) (w : world) :
  let command := default JNull (am !! "command") in
  ∃ o,
    (command <~ Py.get (JObj am) "command" JNull ;;
     if Py.truthy command then print (Executing command) ;; run_guarded command
     else ret tt) w
    = (Ok tt, with_output (output w ++ o) w) ∧
    spawned o = (if Py.truthy command then [command] else []) ∧
    failures o = (if Py.truthy command && spawn_raises w command then [command] else []).
Proof.
  intros command. unfold bind at 1. unfold lift at 1. cbn [Py.get]. fold command.
  destruct (Py.truthy command).
  - exists ([Printed (Executing command); Spawned command] ++
            if spawn_raises w command then [Printed (ErrorExecuting command)] else []).
    unfold bind, print, run_guarded. cbn [output with_output spawn_raises andb].
    destruct (spawn_raises w command); split_and!; try done;
      unfold with_output; cbn; by rewrite <-?app_assoc.
  - exists []. cbn [ret andb]. rewrite app_nil_r. by destruct w.
Qed.

(** With a [print] that returns: for a rule whose actions are a list of
    objects, [execute_actions] hands to the executor every non-empty
    command, in order, and prints an error for exactly the commands on
    which the executor raises. *)
Lemma execute_actions_report (m : gmap string json)
    (actions : list json) (w : world) :
  default (JArr []) (m !! "actions") = JArr actions →
  forallb action_ok actions = true →
  ∃ o,
    execute_actions (JObj m) w = (Ok tt, with_output (output w ++ o) w) ∧
    spawned o = commands_of (JObj m) ∧
    failures o = filter (fun c => spawn_raises w c = true) (commands_of (JObj m)).
Proof.
  intros Hactions Hok.
  unfold execute_actions, commands_of. unfold bind at 1. unfold lift at 1.
  cbn [Py.get]. rewrite Hactions. unfold bind at 1. unfold lift at 1. cbn [Py.iter].
  clear Hactions. revert w. induction actions as [|action actions IH]; intros w.
  - exists []. cbn [for_each ret]. rewrite app_nil_r. by destruct w.
  - cbn [forallb] in Hok. apply andb_true_iff in Hok as [Haction Hrest].
    destruct action as [| | | | | |am]; try done.
    cbn [for_each fmap list_fmap]. unfold bind at 1.
    destruct (one_action am w) as (o1 & -> & Hspawned & Hfailures).
    destruct (IH Hrest (with_output (output w ++ o1) w)) as (o & -> & Ho & Hfo).
    exists (o1 ++ o). cbn [output with_output spawn_raises] in *.
    rewrite spawned_app, failures_app, Ho, Hfo, Hspawned, Hfailures, app_assoc.
    split_and!; [done| |].
    + rewrite filter_cons. by destruct (Py.truthy _).
    + rewrite (filter_cons _ (default JNull (am !! "command"))).
      destruct (Py.truthy _); cbn [andb]; [|by rewrite decide_False].
      rewrite decide_True, filter_cons by done.
      by destruct (spawn_raises w _).
Qed.



(** ** Events *)

(** X13. A line without the delimiter is dropped in silence:
    [process_event] returns normally and the state is what it was: nothing
    is printed, no rule is looked at, no clock is read. *)
Theorem undelimited_line_is_ignored (line : string) (w : world) :
  ¬ occurs ">>" line →
  process_event line w = (Ok tt, w).
Proof.
  intros Hno%PyStrFacts.not_contains_occurs.
  unfold process_event, bind, lift, parse_event. by rewrite Hno.
Qed.

Lemma undelimited_line_is_ignored_witness :
  process_event "openwindow>0xdead,1,spotify,Spotify - Song" loaded = (Ok tt, loaded).
Proof.
  apply undelimited_line_is_ignored.
  by apply PyStrFacts.not_contains_occurs.
Defined.

(** *** What a daemon never undoes *)

Lemma evolves_refl (w : world) : evolves w w.
Proof. unfold evolves. split_and!; eauto. Qed.

Lemma evolves_trans (w1 w2 w3 : world) : evolves w1 w2 → evolves w2 w3 → evolves w1 w3.
Proof.
  intros (Hr & Hc & Hs & Ht & Ho & Hk & Hv) (Hr' & Hc' & Hs' & Ht' & Ho' & Hk' & Hv').
  unfold evolves. split_and!; try congruence;
    [lia|by etrans|intros key ?; by apply Hk', Hk|].
  intros key t Hkey. destruct (Hv' key t Hkey) as [Hold|(n & Hn & ->)].
  - destruct (Hv key t Hold) as [?|(n & Hn & ->)]; [by left|].
    right. exists n. split; [lia|done].
  - right. exists n. split; [lia|]. by rewrite Hc.
Qed.

Section Steady.
Context {A B : Type}.

Lemma steady_ret (a : A) : steady (ret a).
Proof. intros w. apply evolves_refl. Qed.

Lemma steady_lift (r : res A) : steady (lift r).
Proof. intros w. apply evolves_refl. Qed.

Lemma steady_bind (c : M A) (k : A → M B) :
  steady c → (∀ a, steady (k a)) → steady (bind c k).
Proof.
  intros Hc Hk w. unfold bind. specialize (Hc w).
  destruct (c w) as [[a|e] w1]; cbn [snd] in *; [|done].
  eapply evolves_trans; [done|apply Hk].
Qed.

Lemma steady_if (b : bool) (c1 c2 : M A) : steady c1 → steady c2 → steady (if b then c1 else c2).
Proof. by destruct b. Qed.

End Steady.

Lemma steady_for_each {A} (l : list A) (body : A → M unit) :
  (∀ x, steady (body x)) → steady (for_each l body).
Proof.
  intros Hbody. induction l as [|x l IH]; [apply steady_ret|].
  cbn [for_each]. apply steady_bind; [apply Hbody|done].
Qed.

Lemma steady_print (m : message) : steady (print m).
Proof.
  intros w. unfold evolves. cbn. split_and!; eauto. by apply prefix_app_r.
Qed.

Lemma steady_run_guarded (command : json) : steady (run_guarded command).
Proof.
  intros w. unfold evolves. cbn. split_and!; eauto.
  destruct (spawn_raises w command); [rewrite <-app_assoc|]; by apply prefix_app_r.
Qed.

Lemma steady_iter_rules : steady (fun w => (Py.iter (rules w), w)).
Proof. intros w. apply evolves_refl. Qed.

Lemma steady_check_debounce (rule_id debounce_ms : json) :
  steady (check_debounce rule_id debounce_ms).
Proof.
  intros w. unfold check_debounce, bind, lift, ret, time.
  destruct (Py.gt_zero debounce_ms) as [[|]|]; try apply evolves_refl.
  assert (evolves w (with_ticks (S (ticks w)) w)) as Htick.
  { unfold evolves. cbn. split_and!; eauto. }
  destruct (Py.hash rule_id) as [key|]; [|done].
  destruct (Py.div_1000 debounce_ms); [|done].
  destruct (PrimFloat.ltb _ _); [done|].
  unfold evolves. cbn. split_and!; eauto.
  - intros key' Hsome. destruct (decide (key = key')) as [->|Hne].
    + rewrite lookup_insert_eq. by eexists.
    + by rewrite lookup_insert_ne.
  - intros key' t. destruct (decide (key = key')) as [->|Hne].
    + rewrite lookup_insert_eq. intros [= <-]. right. exists (ticks w). split; [lia|done].
    + rewrite lookup_insert_ne by done. by left.
Qed.

Create HintDb steady discriminated.
#[local] Hint Resolve steady_ret steady_lift steady_print steady_run_guarded
  steady_iter_rules steady_check_debounce : steady.
#[local] Hint Extern 2 (steady (bind _ _)) => apply steady_bind; [|intros ?] : steady.
#[local] Hint Extern 2 (steady (if _ then _ else _)) => apply steady_if : steady.
#[local] Hint Extern 2 (steady (for_each _ _)) => apply steady_for_each; intros ? : steady.

Lemma steady_should_execute_rule (rule : json) (event_type : string)
    (event_data : list string) :
  steady (should_execute_rule rule event_type event_data).
Proof. unfold should_execute_rule. auto 30 with steady. Qed.

Lemma steady_execute_actions (rule : json) : steady (execute_actions rule).
Proof. unfold execute_actions. auto 30 with steady. Qed.

#[local] Hint Resolve steady_should_execute_rule steady_execute_actions : steady.

Lemma steady_process_event (line : string) : steady (process_event line).
Proof.
  unfold process_event. apply steady_bind; [apply steady_lift|].
  intros [[event_type|] [event_data|]]; auto 30 with steady.
Qed.

Lemma read_loop_evolves (stream : list reading) (w : world) :
  evolves w (read_loop stream w).2.
Proof.
  revert w. induction stream as [|[text| |] rest IH]; intros w;
    cbn [read_loop snd]; try apply evolves_refl.
  pose proof (steady_process_event (PyText.strip text) w) as Hstep.
  destruct (process_event (PyText.strip text) w) as [[[]|e] w1]; cbn [snd] in *; [|done].
  eapply evolves_trans; [done|apply IH].
Qed.

(** X14. What the daemon never undoes while it listens.  Whatever the
    lines and the rules, even when an exception is raised half-way,
    [process_event], and with it the whole of [listen_to_events], leaves the
    rule set as it is, only adds to the end of the output, never removes a
    last-fire time, and records as last-fire times only readings of the
    clock taken while it ran. *)
Theorem listening_never_undoes (connects : bool) (stream : list reading) (line : string)
    (w : world) :
  evolves w (process_event line w).2 ∧
  evolves w (listen_to_events connects stream w).2.
Proof.
  split; [apply steady_process_event|].
  unfold listen_to_events. destruct connects; [|apply evolves_refl].
  pose proof (read_loop_evolves stream w) as Hloop.
  by destruct (read_loop stream w).
Qed.



(** ** Loading *)




(** With a [print] that returns: [load_rules] returns and leaves
    something that can be iterated. *)
Lemma load_rules_iterable (cfg : config_read) (w : world) :
  (load_rules cfg w).1 = Ok tt ∧
  (∃ items, Py.iter (rules (load_rules cfg w).2) = Ok items) ∧
  (∀ doc, cfg = Document doc → Py.len doc = Raise TypeError →
     rules (load_rules cfg w).2 = JArr [] ∧
     output (load_rules cfg w).2 = output w ++ [Printed ErrorLoadingRules]).
Proof.
  unfold load_rules, bind, print. split_and!.
  - destruct cfg as [| |doc]; try done. by destruct (Py.len doc).
  - destruct cfg as [| |doc]; try (by eexists).
    cbn. destruct doc; cbn; by eexists.
  - intros doc -> Hlen. cbn. by rewrite Hlen.
Qed.

(** ** The listening loop *)

Lemma parse_event_total (line : string) :
  parse_event line = Ok (None, None) ∨
  ∃ event_type event_data, parse_event line = Ok (Some event_type, Some event_data).
Proof.
  unfold parse_event. destruct (PyStr.contains ">>" line) eqn:Hocc; [|by left].
  apply PyStrFacts.contains_occurs in Hocc.
  destruct (PyStrFacts.split_once ">>" line) as (a & b & -> & _); [done..|].
  right. by eexists _, _.
Qed.

(** Over well-formed rules [process_event] returns, whatever the line. *)
Lemma process_event_ok (line : string) (rs : list json) (w : world) :
  rules w = JArr rs → forallb rule_ok rs = true →
  ∃ w', process_event line w = (Ok tt, w').
Proof.
  intros Hrules Hok. unfold process_event. unfold bind at 1. unfold lift at 1.
  destruct (parse_event_total line) as [->|(event_type & event_data & ->)];
    [by eexists|].
  destruct (_ || _); [by eexists|].
  unfold bind at 1. unfold print at 1. unfold bind at 1.
  unfold with_output at 1. cbn [rules]. rewrite Hrules. cbn [Py.iter].
  destruct (rules_loop event_type event_data rs
              (with_output (output w ++ [Printed (ProcessingEvent event_type event_data)]) w)
              Hok) as (o & -> & _).
  by eexists.
Qed.

Lemma read_loop_lines (lines : list string) (rs : list json) (w : world) :
  rules w = JArr rs → forallb rule_ok rs = true →
  read_loop (Line <$> lines) w
  = (false, foldl (fun w line => (process_event (PyText.strip line) w).2) w lines).
Proof.
  intros Hrules Hok. revert w Hrules.
  induction lines as [|line lines IH]; intros w Hrules; [done|].
  cbn [fmap list_fmap read_loop foldl].
  destruct (steady_process_event (PyText.strip line) w) as [Hsame _].
  destruct (process_event_ok (PyText.strip line) rs w Hrules Hok) as [w' Hw'].
  rewrite Hw' in Hsame |- *. cbn [snd] in Hsame |- *.
  apply IH. by rewrite Hsame.
Qed.




(** ** A debounce window beyond the floats *)

Lemma nearest_scale_lower (n d : Z) :
  ∃ m s, PyFloat.nearest n d = (m, s) ∧ Z.log2 n - Z.log2 d - 53 ≤ s.
Proof.
  unfold PyFloat.nearest. cbv zeta.
  destruct (_ <? _); eexists _, _; (split; [reflexivity|lia]).
Qed.

Lemma div_1000_overflow (z : Z) :
  2 ^ 1034 ≤ z → Py.div_1000 (JInt z) = Raise OverflowError.
Proof.
  intros Hbig. unfold Py.div_1000, Py.of_ratio, PyFloat.of_ratio.
  assert (0 < 2 ^ 1034) as Hpos by (by apply Z.pow_pos_nonneg).
  rewrite (proj2 (Z.eqb_neq z 0)) by lia.
  destruct (nearest_scale_lower (Z.abs z) 1000) as (m & s & -> & Hs).
  assert (1034 ≤ Z.log2 (Z.abs z)) as Hlog.
  { rewrite Z.abs_eq by lia. by apply Z.log2_le_pow2; [lia|]. }
  change (Z.log2 1000) with 9 in Hs.
  unfold PyFloat.too_large. by rewrite (proj2 (Z.ltb_lt 971 s)) by lia.
Qed.

Lemma check_debounce_overflow (rule_id : json) (z : Z) (w : world) :
  scalar rule_id = true → 2 ^ 1034 ≤ z →
  check_debounce rule_id (JInt z) w = (Raise OverflowError, with_ticks (S (ticks w)) w).
Proof.
  intros Hid Hbig.
  assert (0 < 2 ^ 1034) as Hpos by (by apply Z.pow_pos_nonneg).
  destruct (hash_scalar _ Hid) as [key Hkey].
  unfold check_debounce, bind, lift, time. cbn [Py.gt_zero].
  rewrite (proj2 (Z.ltb_lt 0 z)) by lia.
  by rewrite Hkey, (div_1000_overflow z Hbig).
Qed.

(** X20. A debounce window too long to be a float.  The window is
    computed as [debounce_ms / 1000] at every event of the rule's trigger
    type.  For an enabled rule with a hashable id and an integer debounce of
    [2^1034] milliseconds or more the division raises [OverflowError]: the
    clock has been read, no last-fire time is recorded, no condition is
    evaluated, and the exception leaves [should_execute_rule]. *)
Theorem huge_debounce_raises (m t : gmap string json) (z : Z) (event_type : string)
    (event_data : list string) (w : world) :
  Py.truthy (default (JBool true) (m !! "enabled")) = true →
  m !! "trigger" = Some (JObj t) →
  t !! "type" = Some (JStr event_type) →
  scalar (default (JStr "") (m !! "id")) = true →
  t !! "debounce" = Some (JInt z) →
  2 ^ 1034 ≤ z →
  should_execute_rule (JObj m) event_type event_data w
  = (Raise OverflowError, with_ticks (S (ticks w)) w).
Proof.
  intros Henabled Htrigger Htype Hid Hdebounce Hbig.
  unfold should_execute_rule. unfold bind at 1. unfold lift at 1. cbn [Py.get].
  rewrite Henabled. cbn [negb].
  unfold bind at 1. unfold lift at 1. rewrite Htrigger. cbn [default from_option id].
  unfold bind at 1. unfold lift at 1. cbn [Py.get]. rewrite Htype.
  cbn [default from_option id].
  rewrite (proj2 (eq_str_true (JStr event_type) event_type) eq_refl). cbn [negb].
  unfold bind at 1. unfold lift at 1. unfold bind at 1. unfold lift at 1.
  rewrite Hdebounce. cbn [default from_option id]. unfold bind at 1.
  by rewrite (check_debounce_overflow _ z w Hid Hbig).
Qed.

Lemma huge_debounce_raises_witness :
  should_execute_rule (JObj wf_006_fields) "openwindow" spotify_data loaded
  = (Raise OverflowError, with_ticks (S (ticks loaded)) loaded).
Proof.
  apply (huge_debounce_raises wf_006_fields wf_006_trigger (2 ^ 1034)); done.
Defined.

(** ** What the rule dialog saves *)

Module PyIntFacts.

Lemma drop_underscores_length (prev : option ascii) (l l' : list ascii) :
  PyFloat.drop_underscores prev l = Some l' → (length l' ≤ length l)%nat.
Proof.
  revert prev l'. induction l as [|c l IH]; intros prev l'; cbn [PyFloat.drop_underscores].
  - destruct (decide _); [done|]. intros [= <-]. done.
  - destruct (decide (c = "_"%char)).
    + destruct prev as [p|]; [|done]. destruct (PyFloat.is_digit p); [|done].
      intros Hl%IH. cbn [length]. lia.
    + destruct (_ && _); [done|].
      destruct (PyFloat.drop_underscores (Some c) l) as [l0|] eqn:Hl0; [|done].
      intros [= <-]. apply IH in Hl0. cbn [length]. lia.
Qed.

Lemma lstrip_length (l : list ascii) : (length (PyFloat.lstrip l) ≤ length l)%nat.
Proof.
  induction l as [|c l IH]; [done|]. cbn [PyFloat.lstrip].
  destruct (PyFloat.is_space c); cbn [length]; lia.
Qed.

Lemma strip_length (l : list ascii) : (length (PyFloat.strip l) ≤ length l)%nat.
Proof.
  unfold PyFloat.strip. rewrite length_reverse.
  etrans; [apply lstrip_length|]. rewrite length_reverse. apply lstrip_length.
Qed.

Lemma take_sign_length (l : list ascii) :
  (length (PyFloat.take_sign l).2 ≤ length l)%nat.
Proof.
  destruct l as [|c l]; [done|]. cbn [PyFloat.take_sign].
  repeat destruct (decide _); cbn [snd length]; lia.
Qed.

Lemma span_digits_all (l ds : list ascii) :
  PyFloat.span_digits l = (ds, []) →
  l = ds ∧ Forall (fun c => PyFloat.is_digit c = true) ds.
Proof.
  revert ds. induction l as [|c l IH]; intros ds; cbn [PyFloat.span_digits].
  - by intros [= <-].
  - destruct (PyFloat.is_digit c) eqn:Hc; [|done].
    destruct (PyFloat.span_digits l) as [ds' r]. intros [= <- ->].
    destruct (IH ds' eq_refl) as [-> Hall]. split; [done|by constructor].
Qed.

Lemma digits_value_bound (ds : list ascii) (acc : Z) :
  Forall (fun c => PyFloat.is_digit c = true) ds → 0 ≤ acc →
  0 ≤ foldl (fun acc c => 10 * acc + (PyFloat.code c - 48)) acc ds
  < (acc + 1) * 10 ^ Z.of_nat (length ds).
Proof.
  intros Hall. revert acc. induction Hall as [|c ds Hc _ IH]; intros acc Hacc.
  - cbn [foldl length]. change (10 ^ Z.of_nat 0) with 1. lia.
  - cbn [foldl length]. unfold PyFloat.is_digit in Hc.
    apply andb_true_iff in Hc as [Hlo%Z.leb_le Hhi%Z.leb_le].
    specialize (IH (10 * acc + (PyFloat.code c - 48)) ltac:(lia)).
    rewrite Nat2Z.inj_succ, Z.pow_succ_r by lia.
    assert (0 < 10 ^ Z.of_nat (length ds)) by (apply Z.pow_pos_nonneg; lia).
    nia.
Qed.

(** A number written with [n] characters is below [10^n]. *)
Lemma of_string_bound (s : string) (z : Z) :
  PyInt.of_string s = Some z → Z.abs z < 10 ^ Z.of_nat (String.length s).
Proof.
  unfold PyInt.of_string.
  destruct (PyFloat.drop_underscores _ _) as [l|] eqn:Hl; [|done]. cbn [mbind option_bind].
  apply drop_underscores_length in Hl. rewrite length_fmap in Hl.
  pose proof (strip_length l) as Hstrip.
  pose proof (take_sign_length (PyFloat.strip l)) as Hsign.
  destruct (PyFloat.take_sign (PyFloat.strip l)) as [neg r]. cbn [snd] in Hsign.
  destruct (PyFloat.span_digits r) as [[|d ds] [|c rest]] eqn:Hspan; try done.
  destruct (_ <? _)%nat; [done|].
  apply span_digits_all in Hspan as [-> Hall].
  pose proof (digits_value_bound (d :: ds) 0 Hall ltac:(done)) as Hvalue.
  fold (PyFloat.digits_value (d :: ds)) in Hvalue.
  assert (10 ^ Z.of_nat (length (d :: ds)) ≤ 10 ^ Z.of_nat (String.length s)) as Hmono.
  { apply Z.pow_le_mono_r; [lia|].
    assert (length (String.list_ascii_of_string s) = String.length s) as <-; [|lia].
    clear. induction s as [|c s IH]; [done|]. cbn. by rewrite IH. }
  intros [= <-]. destruct neg; lia.
Qed.

End PyIntFacts.

Lemma dialog_trigger_ok (self : RuleDialog) :
  (String.length (debounce_edit self) ≤ 307)%nat →
  trigger_ok (JObj (dialog_trigger self)) = true.
Proof.
  intros Hlen. unfold dialog_trigger, trigger_ok.
  destruct (PyInt.of_string (debounce_edit self)) as [z|] eqn:Hz;
    [destruct (0 <? z) eqn:Hpos|]; [|by rewrite lookup_singleton_ne..].
  rewrite lookup_insert_eq. cbn [default from_option id].
  apply PyIntFacts.of_string_bound in Hz. apply Z.ltb_lt in Hpos.
  assert (10 ^ Z.of_nat (String.length (debounce_edit self)) ≤ 10 ^ 307) as Hmono
    by (apply Z.pow_le_mono_r; lia).
  assert (10 ^ 307 < 2 ^ 1023) as Hfloat by (apply Z.ltb_lt; vm_compute; reflexivity).
  apply andb_true_iff. split; [apply Z.leb_le|apply Z.ltb_lt]; lia.
Qed.

Lemma dialog_conditions_ok (self : RuleDialog) :
  forallb condition_ok (dialog_conditions self) = true.
Proof.
  unfold dialog_conditions.
  induction (conditions_widgets self) as [|cw cws IH]; [done|].
  cbn [omap list_omap]. destruct (_ && _); [|done].
  cbn [forallb]. by rewrite IH.
Qed.

Lemma dialog_actions_ok (self : RuleDialog) :
  forallb action_ok (dialog_actions self) = true.
Proof.
  unfold dialog_actions.
  induction (actions_widgets self) as [|command commands IH]; [done|].
  cbn [omap list_omap]. destruct (negb _); [|done].
  cbn [forallb]. by rewrite IH.
Qed.

(** A rule out of the dialog is well formed for the daemon, when the
    debounce text has at most 307 characters and the id the rule came with
    is a scalar. *)
Lemma get_rule_data_ok (self : RuleDialog) (fresh_id : string) :
  scalar (default (JStr fresh_id) (rule_data self !! "id")) = true →
  (String.length (debounce_edit self) ≤ 307)%nat →
  rule_ok (JObj (get_rule_data self fresh_id)) = true.
Proof.
  intros Hid Hlen. unfold rule_ok.
  assert (get_rule_data self fresh_id !! "trigger" = Some (JObj (dialog_trigger self)))
    as -> by reflexivity.
  assert (get_rule_data self fresh_id !! "id"
          = Some (default (JStr fresh_id) (rule_data self !! "id"))) as -> by reflexivity.
  assert (get_rule_data self fresh_id !! "conditions"
          = Some (JArr (dialog_conditions self))) as -> by reflexivity.
  assert (get_rule_data self fresh_id !! "actions"
          = Some (JArr (dialog_actions self))) as -> by reflexivity.
  cbn [default from_option id array_of].
  by rewrite (dialog_trigger_ok self Hlen), Hid, dialog_conditions_ok, dialog_actions_ok.
Qed.

(** X22. The dialog accepts a debounce the daemon cannot divide.  The
    dialog keeps any positive integer the debounce field parses to.  When
    that integer is [2^1034] or more (312 nines, say), the saved rule, if
    enabled, raises [OverflowError] in the daemon at every event of its
    trigger type. *)
Theorem dialog_accepts_a_debounce_the_daemon_rejects (self : RuleDialog)
    (fresh_id : string) (z : Z) (event_data : list string) (w : world) :
  enabled_check self = true →
  scalar (default (JStr fresh_id) (rule_data self !! "id")) = true →
  PyInt.of_string (debounce_edit self) = Some z →
  2 ^ 1034 ≤ z →
  should_execute_rule (JObj (get_rule_data self fresh_id)) (trigger_combo self) event_data w
  = (Raise OverflowError, with_ticks (S (ticks w)) w).
Proof.
  intros Henabled Hid Hz Hbig.
  assert (0 < 2 ^ 1034) as Hpos by (by apply Z.pow_pos_nonneg).
  assert (dialog_trigger self
          = <["debounce" := JInt z]> {[ "type" := JStr (trigger_combo self) ]}) as Htrigger.
  { unfold dialog_trigger. by rewrite Hz, (proj2 (Z.ltb_lt 0 z)) by lia. }
  unfold should_execute_rule. unfold bind at 1. unfold lift at 1. cbn [Py.get].
  assert (get_rule_data self fresh_id !! "enabled" = Some (JBool (enabled_check self)))
    as -> by reflexivity.
  rewrite Henabled. cbn [default from_option id Py.truthy negb].
  unfold bind at 1. unfold lift at 1.
  assert (get_rule_data self fresh_id !! "trigger" = Some (JObj (dialog_trigger self)))
    as -> by reflexivity.
  cbn [default from_option id]. rewrite Htrigger.
  unfold bind at 1. unfold lift at 1. cbn [Py.get].
  rewrite lookup_insert_ne, lookup_singleton_eq by done. cbn [default from_option id].
  rewrite (proj2 (eq_str_true (JStr (trigger_combo self)) (trigger_combo self)) eq_refl).
  cbn [negb]. unfold bind at 1. unfold lift at 1.
  assert (get_rule_data self fresh_id !! "id"
          = Some (default (JStr fresh_id) (rule_data self !! "id"))) as -> by reflexivity.
  cbn [default from_option id]. unfold bind at 1. unfold lift at 1.
  rewrite lookup_insert_eq. cbn [default from_option id]. unfold bind at 1.
  by rewrite (check_debounce_overflow _ z w Hid Hbig).
Qed.

Lemma dialog_accepts_a_debounce_the_daemon_rejects_witness :
  should_execute_rule (JObj (get_rule_data (spotify_dialog long_pause) "c0ffee00"))
    "openwindow" spotify_data loaded
  = (Raise OverflowError, with_ticks (S (ticks loaded)) loaded).
Proof.
  apply (dialog_accepts_a_debounce_the_daemon_rejects (spotify_dialog long_pause)
           "c0ffee00" (10 ^ 312 - 1) spotify_data loaded).
  - reflexivity.
  - reflexivity.
  - vm_compute. reflexivity.
  - vm_compute. discriminate.
Defined.

(** ** The default of the enabled gate *)

(** C10. A rule without an [enabled] field is enabled: the gate reads
    [True], the rule is matched exactly as the same rule with
    ["enabled": true] written out, and it fires whenever the rest allows:
    for a trigger that is an object, an integer debounce and a list of
    conditions, [should_execute_rule] answers [True] exactly when the
    trigger type is the event's, the debounce window is open (there is
    none, or it has passed since the recorded last fire) and the loop over
    the conditions answers [True]. *)
Theorem missing_enabled_means_enabled (m : gmap string json) (event_type : string)
    (event_data : list string) (w : world) :
  m !! "enabled" = None →
  Py.get (JObj m) "enabled" (JBool true) = Ok (JBool true) ∧
  should_execute_rule (JObj m) event_type event_data w
  = should_execute_rule (JObj (<["enabled" := JBool true]> m)) event_type event_data w ∧
  ∀ (t : gmap string json) (d : Z) (conditions : list json),
    default (JObj ∅) (m !! "trigger") = JObj t →
    default (JInt 0) (t !! "debounce") = JInt d →
    default (JArr []) (m !! "conditions") = JArr conditions →
    ((should_execute_rule (JObj m) event_type event_data w).1 = Ok true ↔
     t !! "type" = Some (JStr event_type) ∧
     window_open (default (JStr "") (m !! "id")) d w ∧
     check_conditions conditions event_data event_type = Ok true).
Proof.
  intros Hnone. split_and!.
  - unfold Py.get. by rewrite Hnone.
  - unfold should_execute_rule, bind, lift, Py.get.
    rewrite Hnone, lookup_insert_eq. cbn [default from_option].
    by rewrite !lookup_insert_ne.
  - intros t d conditions Htrigger Hdebounce Hconditions.
    unfold should_execute_rule, bind, lift, ret, Py.get.
    rewrite Hnone, Htrigger, Hdebounce, Hconditions.
    cbn [default from_option id Py.truthy Py.iter negb fst].
    destruct (Py.eq_str (default JNull (t !! "type")) event_type) eqn:Htype;
      cbn [negb fst].
    2:{ split; [done|]. intros (Heq & _). rewrite Heq in Htype. cbn in Htype.
        by rewrite bool_decide_eq_true_2 in Htype. }
    apply eq_str_true in Htype.
    assert (t !! "type" = Some (JStr event_type)) as Htype'.
    { destruct (t !! "type"); [|done]. cbn in Htype. by subst. }
    unfold window_open. destruct (decide (0 < d)) as [Hd|Hd].
    + destruct (Py.hash (default (JStr "") (m !! "id"))) as [key|e] eqn:Hkey.
      2:{ unfold check_debounce, bind, lift. cbn [Py.gt_zero].
          rewrite (proj2 (Z.ltb_lt 0 d)), Hkey by done. cbn.
          split; [done|]. intros (_ & [?|(? & ? & ? & _)] & _); [lia|done]. }
      destruct (Py.div_1000 (JInt d)) as [window|e] eqn:Hwindow.
      2:{ unfold check_debounce, bind, lift. cbn [Py.gt_zero].
          rewrite (proj2 (Z.ltb_lt 0 d)), Hkey, Hwindow by done. cbn.
          split; [done|]. intros (_ & [?|(? & ? & ? & ? & _)] & _); [lia|done]. }
      rewrite (check_debounce_window _ w key d window) by done.
      destruct (PrimFloat.ltb _ _) eqn:Hlt; cbn [negb fst snd].
      * split; [done|].
        intros (_ & [?|(key' & window' & [= <-] & [= <-] & Hopen)] & _); [lia|].
        congruence.
      * split; [intros Hcs; split_and!; eauto 6|by intros (_ & _ & ?)].
    + unfold check_debounce, bind, lift, ret. cbn [Py.gt_zero].
      rewrite (proj2 (Z.ltb_ge 0 d)) by lia. cbn [negb fst].
      split; [intros Hcs; split_and!; [done|left; lia|done]|by intros (_ & _ & ?)].
Qed.

(** [wf_002] has no [enabled] field: it fires on the Spotify window, whose
    title contains "Song", and not on the Firefox window. *)
Lemma missing_enabled_means_enabled_witness :
  Py.get wf_002 "enabled" (JBool true) = Ok (JBool true) ∧
  should_execute_rule wf_002 "openwindow" spotify_data loaded
  = should_execute_rule (JObj (<["enabled" := JBool true]> wf_002_fields))
      "openwindow" spotify_data loaded ∧
  (should_execute_rule wf_002 "openwindow" spotify_data loaded).1 = Ok true ∧
  (should_execute_rule wf_002 "openwindow" firefox_data loaded).1 ≠ Ok true.
Proof.
  pose proof (missing_enabled_means_enabled wf_002_fields "openwindow" spotify_data loaded
                ltac:(reflexivity)) as (Hgate & Hsame & Hfires).
  pose proof (missing_enabled_means_enabled wf_002_fields "openwindow" firefox_data loaded
                ltac:(reflexivity)) as (_ & _ & Hquiet).
  split_and!; [exact Hgate|exact Hsame| |].
  - apply (Hfires (list_to_map [("type", JStr "openwindow")]) 0
             [obj [("property", JStr "title"); ("operator", JStr "contains");
                   ("value", JStr "Song")]]); [reflexivity..|].
    split_and!; [reflexivity|by left|reflexivity].
  - intros Hfire.
    apply (Hquiet (list_to_map [("type", JStr "openwindow")]) 0
             [obj [("property", JStr "title"); ("operator", JStr "contains");
                   ("value", JStr "Song")]]) in Hfire as (_ & _ & Hconditions);
      [|reflexivity..].
    discriminate Hconditions.
Defined.

(** * With a standard output that can fail *)

Lemma bind_ext {A B} (c1 c2 : M A) (k1 k2 : A → M B) (w : world) :
  c1 w = c2 w → (∀ a w', k1 a w' = k2 a w') → bind c1 k1 w = bind c2 k2 w.
Proof. intros Hc Hk. unfold bind. rewrite Hc. by destruct (c2 w) as [[a|e] w']. Qed.

Lemma for_each_ext {A} (l : list A) (body1 body2 : A → M unit) (w : world) :
  (∀ x w', body1 x w' = body2 x w') → for_each l body1 w = for_each l body2 w.
Proof.
  intros Hbody. revert w. induction l as [|x l IH]; intros w; [done|].
  cbn [for_each]. by apply bind_ext.
Qed.

(** ** When every message is taken

    The methods are then those with a [print] that returns. *)

Section Accepting.

Variable out : stdout.
Hypothesis accepts : ∀ o msg, refuses out o msg = None.

Lemma print_accepted (m : message) (w : world) : Piped.print out m w = print m w.
Proof. unfold Piped.print, print. by rewrite accepts. Qed.

Lemma load_rules_accepted (cfg : config_read) (w : world) :
  Piped.load_rules out cfg w = load_rules cfg w.
Proof.
  unfold Piped.load_rules, load_rules, Piped.try_except, bind, lift, Piped.print, print.
  destruct cfg as [| |doc]; cbn [output with_rules]; rewrite ?accepts; try done.
  destruct (Py.len doc); unfold with_rules; cbn [output]; by rewrite accepts.
Qed.

Lemma execute_actions_accepted (rule : json) (w : world) :
  Piped.execute_actions out rule w = execute_actions rule w.
Proof.
  unfold Piped.execute_actions, execute_actions.
  apply bind_ext; [done|]. intros actions w1.
  apply bind_ext; [done|]. intros items w2.
  apply for_each_ext. intros action w3.
  apply bind_ext; [done|]. intros command w4.
  destruct (Py.truthy command); [|done].
  unfold Piped.try_except, bind, Piped.print, Piped.spawn, print, run_guarded.
  rewrite accepts. unfold with_output. cbn [output spawn_raises].
  destruct (spawn_raises w4 command); [|done].
  cbn [output]. by rewrite accepts.
Qed.

Lemma process_event_accepted (line : string) (w : world) :
  Piped.process_event out line w = process_event line w.
Proof.
  unfold Piped.process_event, process_event.
  apply bind_ext; [done|]. intros [[event_type|] [event_data|]] w1; try done.
  destruct (_ || _); [done|].
  apply bind_ext; [apply print_accepted|]. intros _ w2.
  apply bind_ext; [done|]. intros items w3.
  apply for_each_ext. intros rule w4.
  apply bind_ext; [done|]. intros [|] w5; [|done].
  apply bind_ext; [done|]. intros name w6.
  apply bind_ext; [apply print_accepted|]. intros _ w7.
  apply execute_actions_accepted.
Qed.

Lemma read_loop_accepted (stream : list reading) (w : world) :
  Piped.read_loop out stream w = read_loop stream w.
Proof.
  revert w. induction stream as [|[text| |] rest IH]; intros w; try done.
  cbn [Piped.read_loop read_loop]. rewrite process_event_accepted.
  by destruct (process_event (PyText.strip text) w) as [[[]|e] w1].
Qed.

Lemma lines_accepted (lines : list string) (w : world) :
  foldl (fun w line => (Piped.process_event out (PyText.strip line) w).2) w lines
  = foldl (fun w line => (process_event (PyText.strip line) w).2) w lines.
Proof.
  revert w. induction lines as [|line lines IH]; intros w; [done|].
  cbn [foldl]. by rewrite process_event_accepted, IH.
Qed.

Hypothesis accepts_notice : ∀ o notice, refuses_notice out o notice = None.

Lemma listen_to_events_accepted (connects : bool) (stream : list reading) (w : world) :
  Piped.listen_to_events out connects stream w
  = (Ok tt, (listen_to_events connects stream w).1,
     (listen_to_events connects stream w).2).
Proof.
  unfold Piped.listen_to_events, listen_to_events. rewrite !accepts_notice.
  destruct connects; [|done]. rewrite read_loop_accepted.
  destruct (read_loop stream w) as [[|] w1]; by rewrite ?accepts_notice.
Qed.

End Accepting.

(** X11. One failing command does not keep the others from running.  As
    long as standard output takes every message, for a rule whose actions
    are a list of objects [execute_actions] raises nothing and changes
    nothing but the output; it hands to the executor every non-empty
    command, in order, whether or not the executor raises on some of them,
    and prints an error for exactly the commands on which it does. *)
Theorem failing_command_does_not_stop_the_rest (out : stdout) (m : gmap string json)
    (actions : list json) (w : world) :
  (∀ o msg, refuses out o msg = None) →
  default (JArr []) (m !! "actions") = JArr actions →
  forallb action_ok actions = true →
  ∃ o,
    Piped.execute_actions out (JObj m) w = (Ok tt, with_output (output w ++ o) w) ∧
    spawned o = commands_of (JObj m) ∧
    failures o = filter (fun c => spawn_raises w c = true) (commands_of (JObj m)).
Proof.
  intros Haccepts Hactions Hok.
  rewrite (execute_actions_accepted out Haccepts).
  by apply (execute_actions_report m actions w).
Qed.

(** Three commands, the second of which is a number, on which the executor
    raises: all three are handed over, one error is printed. *)
Lemma failing_command_does_not_stop_the_rest_witness :
  ∃ o,
    Piped.execute_actions accepting (JObj wf_007_fields) careful
    = (Ok tt, with_output (output careful ++ o) careful) ∧
    spawned o = [JStr "notify-send one"; JInt 2; JStr "notify-send three"] ∧
    failures o = [JInt 2].
Proof.
  destruct (failing_command_does_not_stop_the_rest accepting wf_007_fields wf_007_actions
              careful) as (o & Hrun & Hspawned & Hfailures); [done..|].
  exists o. split_and!; [exact Hrun|by rewrite Hspawned|by rewrite Hfailures].
Defined.

(** X17. What [load_rules] leaves can be looped over, as long as standard
    output takes every message: then [load_rules] raises nothing, whatever
    reading the file comes to, and the value of [self.rules] can be
    iterated; a document that has no length (a number, a boolean or null)
    has been reported as an error and replaced by the empty list. *)
Theorem loaded_rules_can_be_looped_over (out : stdout) (cfg : config_read) (w : world) :
  (∀ o msg, refuses out o msg = None) →
  (Piped.load_rules out cfg w).1 = Ok tt ∧
  (∃ items, Py.iter (rules (Piped.load_rules out cfg w).2) = Ok items) ∧
  (∀ doc, cfg = Document doc → Py.len doc = Raise TypeError →
     rules (Piped.load_rules out cfg w).2 = JArr [] ∧
     output (Piped.load_rules out cfg w).2 = output w ++ [Printed ErrorLoadingRules]).
Proof.
  intros Haccepts. rewrite (load_rules_accepted out Haccepts).
  apply load_rules_iterable.
Qed.

Lemma loaded_rules_can_be_looped_over_witness :
  (Piped.load_rules accepting (Document (JInt 3)) loaded).1 = Ok tt ∧
  (∃ items, Py.iter (rules (Piped.load_rules accepting (Document (JInt 3)) loaded).2)
            = Ok items) ∧
  rules (Piped.load_rules accepting (Document (JInt 3)) loaded).2 = JArr [] ∧
  output (Piped.load_rules accepting (Document (JInt 3)) loaded).2
  = output loaded ++ [Printed ErrorLoadingRules].
Proof.
  destruct (loaded_rules_can_be_looped_over accepting (Document (JInt 3)) loaded)
    as (Hreturns & Hiter & Hscalar); [done|].
  split_and!; [exact Hreturns|exact Hiter|by apply (Hscalar (JInt 3))..].
Defined.

(** X18. With well-formed rules, the text of a line cannot end the
    listening.  When the rule set is a list of well-formed rules, every
    read returns a line that decodes, and standard output takes every
    message, the loop of [listen_to_events] runs to the end of the stream
    whatever the lines say: each is stripped and processed, in order, in the
    state the line before it left; nothing is raised, the error message is
    not printed, and the writer is closed. *)
Theorem well_formed_rules_keep_listening (out : stdout) (lines : list string)
    (rs : list json) (w : world) :
  (∀ o msg, refuses out o msg = None) →
  (∀ o notice, refuses_notice out o notice = None) →
  rules w = JArr rs →
  forallb rule_ok rs = true →
  Piped.listen_to_events out true (Line <$> lines) w
  = (Ok tt, [ConnectedToSocket; WriterClosed],
     foldl (fun w line => (Piped.process_event out (PyText.strip line) w).2) w lines).
Proof.
  intros Haccepts Hnotices Hrules Hok.
  rewrite (listen_to_events_accepted out Haccepts Hnotices), (lines_accepted out Haccepts).
  unfold listen_to_events. by rewrite (read_loop_lines lines rs w Hrules Hok).
Qed.

Lemma well_formed_rules_keep_listening_witness :
  Piped.listen_to_events accepting true
    (Line <$> [spotify_line; "  no delimiter "; firefox_line]) loaded
  = (Ok tt, [ConnectedToSocket; WriterClosed],
     foldl (fun w line => (Piped.process_event accepting (PyText.strip line) w).2) loaded
       [spotify_line; "  no delimiter "; firefox_line]).
Proof.
  apply (well_formed_rules_keep_listening accepting
           [spotify_line; "  no delimiter "; firefox_line] [wf_001] loaded); done.
Defined.

(** X21. Rules saved from the dialog keep the daemon listening.  Take a
    rule set in which every rule is what [get_rule_data] returns for some
    state of the dialog's widgets: any name, trigger, condition rows and
    command rows, a debounce text of at most 307 characters, and, for an
    edited rule, a scalar id.  Every such rule is well formed for the
    daemon; so, when every read returns a line that decodes and standard
    output takes every message, the loop of [listen_to_events] processes
    every line and nothing is raised, whatever the lines say. *)
Theorem dialog_rules_keep_the_daemon_listening (out : stdout)
    (dialogs : list (RuleDialog * string)) (lines : list string) (w : world) :
  (∀ o msg, refuses out o msg = None) →
  (∀ o notice, refuses_notice out o notice = None) →
  Forall (fun entry =>
            scalar (default (JStr entry.2) (rule_data entry.1 !! "id")) = true ∧
            (String.length (debounce_edit entry.1) ≤ 307)%nat) dialogs →
  rules w = JArr ((fun entry => JObj (get_rule_data entry.1 entry.2)) <$> dialogs) →
  forallb rule_ok ((fun entry => JObj (get_rule_data entry.1 entry.2)) <$> dialogs) = true ∧
  Piped.listen_to_events out true (Line <$> lines) w
  = (Ok tt, [ConnectedToSocket; WriterClosed],
     foldl (fun w line => (Piped.process_event out (PyText.strip line) w).2) w lines).
Proof.
  intros Haccepts Hnotices Hdialogs Hrules.
  assert (forallb rule_ok
            ((fun entry => JObj (get_rule_data entry.1 entry.2)) <$> dialogs) = true) as Hok.
  { clear Hrules. induction Hdialogs as [|entry dialogs [Hid Hlen] _ IH]; [done|].
    cbn [fmap list_fmap forallb]. by rewrite (get_rule_data_ok _ _ Hid Hlen), IH. }
  split; [done|].
  rewrite (listen_to_events_accepted out Haccepts Hnotices), (lines_accepted out Haccepts).
  unfold listen_to_events. by rewrite (read_loop_lines lines _ w Hrules Hok).
Qed.

Lemma dialog_rules_keep_the_daemon_listening_witness :
  forallb rule_ok ((fun entry => JObj (get_rule_data entry.1 entry.2)) <$> saved) = true ∧
  Piped.listen_to_events accepting true (Line <$> [spotify_line; "workspace>>3"]) edited
  = (Ok tt, [ConnectedToSocket; WriterClosed],
     foldl (fun w line => (Piped.process_event accepting (PyText.strip line) w).2) edited
       [spotify_line; "workspace>>3"]).
Proof.
  apply (dialog_rules_keep_the_daemon_listening accepting saved
           [spotify_line; "workspace>>3"] edited); [done|done| |reflexivity].
  repeat constructor; cbn; lia.
Defined.

(** ** When a message is refused *)

(** X23. When the error message of [load_rules] is refused, the handler
    stops before [self.rules = []].  If reading the file raised, the rules
    loaded before stay in effect; if the document has no length (a number,
    a boolean or null), it stays in [self.rules], where it cannot be looped
    over.  Either way the exception of [print] leaves [load_rules]. *)
Theorem refused_error_message_keeps_the_rules (out : stdout) (cfg : config_read)
    (e : exn) (w : world) :
  refuses out (output w) ErrorLoadingRules = Some e →
  (cfg = ReadRaises →
   Piped.load_rules out cfg w = (Raise e, w)) ∧
  (∀ doc, cfg = Document doc → Py.len doc = Raise TypeError →
     Piped.load_rules out cfg w = (Raise e, with_rules doc w) ∧
     Py.iter (rules (Piped.load_rules out cfg w).2) = Raise TypeError).
Proof.
  intros Hrefused. split.
  - intros ->. unfold Piped.load_rules, Piped.try_except, bind, Piped.print.
    by rewrite Hrefused.
  - intros doc -> Hlen.
    assert (Piped.load_rules out (Document doc) w = (Raise e, with_rules doc w)) as ->.
    { unfold Piped.load_rules, Piped.try_except, bind, lift, Piped.print.
      rewrite Hlen. unfold with_rules. cbn [output]. by rewrite Hrefused. }
    split; [done|]. by destruct doc.
Qed.

(** A reload on a closed pipe: an unreadable file leaves [wf_001] in
    effect, and the document [3] stays as the rule set. *)
Lemma refused_error_message_keeps_the_rules_witness :
  rules (Piped.load_rules
           (refusing (fun m => match m with ErrorLoadingRules => true | _ => false end))
           ReadRaises loaded).2 = JArr [wf_001] ∧
  Piped.load_rules
    (refusing (fun m => match m with ErrorLoadingRules => true | _ => false end))
    (Document (JInt 3)) loaded
  = (Raise OSError, with_rules (JInt 3) loaded).
Proof.
  split.
  - by rewrite (proj1 (refused_error_message_keeps_the_rules
                         (refusing (fun m => match m with
                                             | ErrorLoadingRules => true
                                             | _ => false
                                             end))
                         ReadRaises OSError loaded eq_refl) eq_refl).
  - by apply (proj2 (refused_error_message_keeps_the_rules
                       (refusing (fun m => match m with
                                           | ErrorLoadingRules => true
                                           | _ => false
                                           end))
                       (Document (JInt 3)) OSError loaded eq_refl) (JInt 3)).
Defined.

(** X24. A command that cannot be announced is not run.  When standard
    output refuses every "Executing" message and takes the error messages,
    [execute_actions] on a list of action objects hands nothing to the
    executor: for each non-empty command the exception of [print] is
    caught, the error is printed, and the loop goes on. *)
Theorem refused_announcement_skips_the_command (out : stdout) (m : gmap string json)
    (actions : list json) (w : world) :
  (∀ o command, is_Some (refuses out o (Executing command))) →
  (∀ o command, refuses out o (ErrorExecuting command) = None) →
  default (JArr []) (m !! "actions") = JArr actions →
  forallb action_ok actions = true →
  ∃ o,
    Piped.execute_actions out (JObj m) w = (Ok tt, with_output (output w ++ o) w) ∧
    spawned o = [] ∧
    failures o = commands_of (JObj m).
Proof.
  intros Hrefused Haccepted Hactions Hok.
  unfold Piped.execute_actions, commands_of. unfold bind at 1. unfold lift at 1.
  cbn [Py.get]. rewrite Hactions. unfold bind at 1. unfold lift at 1. cbn [Py.iter].
  clear Hactions. revert w. induction actions as [|action actions IH]; intros w.
  - exists []. cbn [for_each ret]. rewrite app_nil_r. by destruct w.
  - cbn [forallb] in Hok. apply andb_true_iff in Hok as [Haction Hrest].
    destruct action as [| | | | | |am]; try done.
    cbn [for_each fmap list_fmap]. unfold bind at 1. unfold bind at 1.
    unfold lift at 1. cbn [Py.get]. rewrite filter_cons.
    set (command := default JNull (am !! "command")).
    destruct (Py.truthy command) eqn:Htruthy.
    + rewrite decide_True by done.
      unfold Piped.try_except at 1, bind at 1, Piped.print at 1 2.
      destruct (Hrefused (output w) command) as [e ->]. rewrite Haccepted.
      destruct (IH Hrest (with_output (output w ++ [Printed (ErrorExecuting command)]) w))
        as (o & -> & Hspawned & Hfailures).
      exists (Printed (ErrorExecuting command) :: o).
      cbn [output with_output]. rewrite <-app_assoc.
      split_and!; [done|done|]. cbn. by rewrite <-Hfailures.
    + rewrite decide_False by done.
      unfold ret at 1. by apply IH.
Qed.

Lemma refused_announcement_skips_the_command_witness :
  ∃ o,
    Piped.execute_actions
      (refusing (fun m => match m with Executing _ => true | _ => false end))
      (JObj wf_007_fields) careful
    = (Ok tt, with_output (output careful ++ o) careful) ∧
    spawned o = [] ∧
    failures o = [JStr "notify-send one"; JInt 2; JStr "notify-send three"].
Proof.
  destruct (refused_announcement_skips_the_command
              (refusing (fun m => match m with Executing _ => true | _ => false end))
              wf_007_fields wf_007_actions careful)
    as (o & Hrun & Hspawned & Hfailures); [by eexists|done..|].
  exists o. split_and!; [exact Hrun|exact Hspawned|by rewrite Hfailures].
Defined.

(** X25. A refused event message ends the listening.  The message
    "Processing event" is printed outside every [try]: when standard output
    refuses it, the exception leaves [process_event] before any rule is
    looked at (no clock is read, no last-fire time is written, nothing is
    handed to the executor), and the loop of [listen_to_events] ends at that
    line; the lines after it are never read.  The writer is closed; if the
    error message of the loop is refused as well, its exception leaves
    [listen_to_events]. *)
Theorem refused_event_message_ends_the_listening (out : stdout)
    (text event_type : string) (event_data : list string) (after : list reading)
    (e : exn) (w : world) :
  parse_event (PyText.strip text) = Ok (Some event_type, Some event_data) →
  event_type ≠ "" →
  refuses out (output w) (ProcessingEvent event_type event_data) = Some e →
  refuses_notice out (output w) ConnectedToSocket = None →
  Piped.process_event out (PyText.strip text) w = (Raise e, w) ∧
  Piped.listen_to_events out true (Line text :: after) w
  = match refuses_notice out (output w) ErrorReading with
    | Some e' => (Raise e', [ConnectedToSocket; WriterClosed], w)
    | None => (Ok tt, [ConnectedToSocket; ErrorReading; WriterClosed], w)
    end.
Proof.
  intros Hparse Htype Hrefused Hconnected.
  pose proof (parse_event_data_nonempty _ _ _ Hparse) as Hdata.
  assert (Piped.process_event out (PyText.strip text) w = (Raise e, w)) as Hevent.
  { unfold Piped.process_event. unfold bind at 1. unfold lift at 1. rewrite Hparse.
    rewrite (bool_decide_eq_false_2 _ Htype), (bool_decide_eq_false_2 _ Hdata).
    cbn [orb]. unfold bind at 1. unfold Piped.print at 1. by rewrite Hrefused. }
  split; [done|].
  unfold Piped.listen_to_events. rewrite Hconnected.
  cbn [Piped.read_loop]. by rewrite Hevent.
Qed.

(** The Spotify window on a standard output that refuses the event
    message and nothing else: [wf_001] is not dispatched, the Firefox line
    is not read. *)
Lemma refused_event_message_ends_the_listening_witness :
  Piped.process_event
    (refusing (fun m => match m with ProcessingEvent _ _ => true | _ => false end))
    (PyText.strip spotify_line) loaded
  = (Raise OSError, loaded) ∧
  Piped.listen_to_events
    (refusing (fun m => match m with ProcessingEvent _ _ => true | _ => false end))
    true (Line spotify_line :: [Line firefox_line]) loaded
  = (Ok tt, [ConnectedToSocket; ErrorReading; WriterClosed], loaded).
Proof.
  apply (refused_event_message_ends_the_listening
           (refusing (fun m => match m with ProcessingEvent _ _ => true | _ => false end))
           spotify_line "openwindow" spotify_data [Line firefox_line] OSError loaded);
    done.
Defined.
